(** * DeepSpeed configuration utilities ([deepspeed/runtime/config_utils.py])

    A shallow embedding of the configuration helpers of DeepSpeed:
    the pretty integer [pp_int], the duplicate-key guard of the JSON
    loader, [get_config_default], the deprecated-field pass of
    [DeepSpeedConfigModel] and the [ScientificNotationEncoder].

    Python values are modelled as follows.
    - [int] is [Z]; [str] is [string], a character standing for the code
      point of the same number (code points below 256);
    - [float] is [spec_float] (IEEE 754, binary64 when valid);
    - a [dict] whose iteration order matters is an association list, one
      that is only looked up is a [gmap]; a [set] is a [gset];
    - an exception is a value of [PyExc]; code that may raise returns
      [Exc A]; code that also logs returns [Run A]. *)

From Stdlib Require Import ZArith String Ascii List Bool Lia.
From Stdlib Require Import Floats.SpecFloat.
From stdpp Require Import gmap strings list.

Set Warnings "-register-all".
Local Open Scope Z_scope.

(** ** Exceptions and results *)

(** A raised exception: its class name, its message and the exception it was
    raised from, if any. *)
Inductive PyExc : Type :=
| mkExc (exc_type : string) (exc_msg : string) (exc_cause : option PyExc).

Definition exc_type (e : PyExc) : string := let 'mkExc t _ _ := e in t.
Definition exc_msg (e : PyExc) : string := let 'mkExc _ m _ := e in m.
Definition exc_cause (e : PyExc) : option PyExc := let 'mkExc _ _ c := e in c.

Definition AssertionError (msg : string) : PyExc := mkExc "AssertionError" msg None.
Definition ValueError (msg : string) : PyExc := mkExc "ValueError" msg None.
Definition AttributeError (msg : string) : PyExc := mkExc "AttributeError" msg None.
Definition KeyError (msg : string) : PyExc := mkExc "KeyError" msg None.
Definition OverflowError (msg : string) : PyExc := mkExc "OverflowError" msg None.

Inductive Exc (A : Type) : Type :=
| Returns (a : A)
| Raises (e : PyExc).
Arguments Returns {A} a.
Arguments Raises {A} e.

Definition exc_bind {A B : Type} (x : Exc A) (k : A -> Exc B) : Exc B :=
  match x with
  | Returns a => k a
  | Raises e => Raises e
  end.

(** ** Text *)

(** Python's [sep.join(parts)]. *)
Fixpoint join (sep : string) (parts : list string) : string :=
  match parts with
  | [] => ""
  | [p] => p
  | p :: rest => p +:+ sep +:+ join sep rest
  end.

(** Python's [" " * n]; a count that is not positive gives the empty string. *)
Fixpoint spaces_nat (n : nat) : string :=
  match n with
  | O => ""
  | S k => String " " (spaces_nat k)
  end.

Definition spaces (n : Z) : string := spaces_nat (Z.to_nat n).

Definition digit_char (d : Z) : ascii := ascii_of_nat (48 + Z.to_nat d).

Definition digit_val (c : ascii) : Z := Z.of_nat (nat_of_ascii c) - 48.

Definition is_digit (c : ascii) : bool :=
  (48 <=? nat_of_ascii c)%nat && (nat_of_ascii c <=? 57)%nat.

(** The decimal digits of [n >= 0], most significant first, in front of [acc]. *)
Fixpoint digits_fuel (fuel : nat) (n : Z) (acc : list ascii) : list ascii :=
  match fuel with
  | O => acc
  | S f =>
      if n <? 10 then digit_char n :: acc
      else digits_fuel f (n / 10) (digit_char (n mod 10) :: acc)
  end.

Definition digits (n : Z) : list ascii :=
  digits_fuel (S (Z.to_nat (Z.log2 n))) n [].

(** The number a list of decimal digits stands for. *)
Definition digits_val (l : list ascii) : Z :=
  fold_left (fun a c => 10 * a + digit_val c) l 0.

(** Python's [str(n)] for an [int]. *)
Definition str_int (n : Z) : string :=
  if n <? 0 then String "-" (string_of_list_ascii (digits (- n)))
  else string_of_list_ascii (digits n).

(** The double quote character. *)
Definition dquote : ascii := "034"%char.

(** Python's [repr(s)] for a [str]: single quotes unless the text holds a single
    quote and no double quote; the quote, the backslash and unprintable
    characters are escaped. *)
Definition hex_char (d : nat) : ascii :=
  if (d <? 10)%nat then ascii_of_nat (48 + d) else ascii_of_nat (87 + d).

Definition printable (c : ascii) : bool :=
  let n := nat_of_ascii c in
  ((32 <=? n)%nat && (n <=? 126)%nat) ||
  ((161 <=? n)%nat && negb (n =? 173)%nat).

Definition repr_char (quote : ascii) (c : ascii) : string :=
  if Ascii.eqb c quote || Ascii.eqb c "\"%char then String "\" (String c "")
  else if Ascii.eqb c "010"%char then "\n"
  else if Ascii.eqb c "013"%char then "\r"
  else if Ascii.eqb c "009"%char then "\t"
  else if printable c then String c ""
  else
    let n := nat_of_ascii c in
    String "\" (String "x" (String (hex_char (n / 16)) (String (hex_char (n mod 16)) ""))).

Fixpoint contains_char (c : ascii) (s : string) : bool :=
  match s with
  | EmptyString => false
  | String a r => Ascii.eqb a c || contains_char c r
  end.

Fixpoint repr_body (quote : ascii) (s : string) : string :=
  match s with
  | EmptyString => ""
  | String c r => repr_char quote c +:+ repr_body quote r
  end.

Definition repr_str (s : string) : string :=
  let quote :=
    if contains_char "'"%char s && negb (contains_char dquote s)
    then dquote else "'"%char in
  String quote (repr_body quote s +:+ String quote "").

(** Python's [repr] of a list of [str]. *)
Definition repr_str_list (l : list string) : string :=
  "[" +:+ join ", " (map repr_str l) +:+ "]".

(** ** [pp_int]: an integer that prints with separators or as a custom text *)

Module PpInt.

(** [class pp_int(int)]: the integer itself ([real]) and the attribute
    [custom_print_str] that [__new__] stores on the instance. *)
Record pp_int : Type := mk_pp_int {
  real : Z;
  custom_print_str : option string
}.

(** [pp_int.__new__(cls, val, custom_print_str=None)]. *)
Definition __new__ (val : Z) (custom : option string) : pp_int :=
  {| real := val; custom_print_str := custom |}.

(** Truth value of [custom_print_str]: [None] and the empty text are false. *)
Definition truthy (o : option string) : bool :=
  match o with
  | Some (String _ _) => true
  | _ => false
  end.

(** The groups of [f"{n:,}"], the last one first: [todo] holds the digits
    still to place, least significant first, [cur] the group being filled. *)
Fixpoint groups_from_right (todo : list ascii) (cur : list ascii) : list (list ascii) :=
  match todo with
  | [] => [cur]
  | c :: rest =>
      if (length cur =? 3)%nat then cur :: groups_from_right rest [c]
      else groups_from_right rest (c :: cur)
  end.

Definition groups (ds : list ascii) : list (list ascii) :=
  rev (groups_from_right (rev ds) []).

(** Python's [f"{n:,}"] for an [int]. *)
Definition format_comma (n : Z) : string :=
  let body := join "," (map string_of_list_ascii (groups (digits (Z.abs n)))) in
  if n <? 0 then String "-" body else body.

(** A text made of the decimal digits [ds] with comma thousands separators:
    groups of three digits counted from the right, the leftmost group
    holding one to three digits. *)
Definition comma_grouped (ds : list ascii) (text : string) : Prop :=
  exists (first : list ascii) (others : list (list ascii)),
    text = join "," (map string_of_list_ascii (first :: others)) /\
    concat (first :: others) = ds /\
    (1 <= length first <= 3)%nat /\
    Forall (fun g => length g = 3%nat) others.

(** [pp_int.__repr__]. *)
Definition __repr__ (self : pp_int) : string :=
  if truthy (custom_print_str self) then
    match custom_print_str self with
    | Some s => s
    | None => ""
    end
  else format_comma (real self).

(** The operators [pp_int] inherits from [int]: they read the integer and
    return a plain [int] or [bool]. *)
Definition __add__ (x y : pp_int) : Z := real x + real y.
Definition __sub__ (x y : pp_int) : Z := real x - real y.
Definition __mul__ (x y : pp_int) : Z := real x * real y.
Definition __neg__ (x : pp_int) : Z := - real x.
Definition __floordiv__ (x y : pp_int) : Exc Z :=
  if real y =? 0 then Raises (mkExc "ZeroDivisionError" "integer division or modulo by zero" None)
  else Returns (real x / real y).
Definition __eq__ (x y : pp_int) : bool := real x =? real y.
Definition __lt__ (x y : pp_int) : bool := real x <? real y.
Definition __le__ (x y : pp_int) : bool := real x <=? real y.

End PpInt.

(** ** The duplicate-key guard of the JSON loader *)

Module DuplicateKeys.
Section Guard.

(** The decoded values; the guard never looks at them. *)
Variable V : Type.

(** [d[k] = v] on a [dict] kept in insertion order: a key already there keeps
    its place and takes the new value. *)
Fixpoint dict_setitem (d : list (string * V)) (k : string) (v : V) : list (string * V) :=
  match d with
  | [] => [(k, v)]
  | (k', v') :: rest =>
      if String.eqb k' k then (k', v) :: rest
      else (k', v') :: dict_setitem rest k v
  end.

(** [dict((k, v) for k, v in ordered_pairs)]. *)
Definition dict_of_pairs (ordered_pairs : list (string * V)) : list (string * V) :=
  fold_left (fun d kv => dict_setitem d (fst kv) (snd kv)) ordered_pairs [].

(** [collections.Counter(keys)], in order of first occurrence. *)
Fixpoint counter_incr (c : list (string * Z)) (k : string) : list (string * Z) :=
  match c with
  | [] => [(k, 1)]
  | (k', n) :: rest =>
      if String.eqb k' k then (k', n + 1) :: rest
      else (k', n) :: counter_incr rest k
  end.

Definition Counter (keys : list string) : list (string * Z) :=
  fold_left counter_incr keys [].


(** The keys the error message lists. *)
Definition duplicate_keys (ordered_pairs : list (string * V)) : list string :=
  let counter := Counter (map fst ordered_pairs) in
  map fst (List.filter (fun kc => 1 <? snd kc) counter).

Definition dict_raise_error_on_duplicate_keys
    (ordered_pairs : list (string * V)) : Exc (list (string * V)) :=
  let d := dict_of_pairs ordered_pairs in
  if negb (length d =? length ordered_pairs)%nat then
    let keys := duplicate_keys ordered_pairs in
    Raises (ValueError ("Duplicate keys in DeepSpeed config: " +:+ repr_str_list keys))
  else Returns d.

End Guard.
End DuplicateKeys.

(** ** Logging *)

Inductive LogLevel : Type := WARNING | ERROR.

(** A record handed to [logger]: its level and its message. *)
Definition LogRecord : Type := (LogLevel * string)%type.

(** A computation that logs and then returns or raises: the records written,
    oldest first, and the outcome. *)
Definition Run (A : Type) : Type := (list LogRecord * Exc A)%type.

Definition ret {A : Type} (a : A) : Run A := ([], Returns a).

Definition raise {A : Type} (e : PyExc) : Run A := ([], Raises e).

Definition lift {A : Type} (x : Exc A) : Run A := ([], x).

Definition logger (level : LogLevel) (msg : string) : Run unit :=
  ([(level, msg)], Returns tt).

Definition bind {A B : Type} (x : Run A) (k : A -> Run B) : Run B :=
  match x with
  | (l1, Returns a) => let '(l2, r) := k a in (l1 ++ l2, r)
  | (l1, Raises e) => (l1, Raises e)
  end.

(** [try: body except Exception as e: logger.error(msg); raise e]. *)
Definition try_log_raise {A : Type} (body : Exc A) (msg : string) : Run A :=
  match body with
  | Returns a => ret a
  | Raises e => bind (logger ERROR msg) (fun _ => raise e)
  end.

(** [assert cond, msg]. *)
Definition assert (cond : bool) (msg : string) : Run unit :=
  if cond then ret tt else raise (AssertionError msg).

Notation "x <- e ;; k" := (bind e (fun x => k))
  (at level 100, e at next level, right associativity).
Notation "e ;;; k" := (bind e (fun _ => k))
  (at level 100, right associativity).


(** Python's [s.split(sep)] for a separator of one character. *)
Fixpoint split_on (sep : ascii) (s : string) : list string :=
  match s with
  | EmptyString => [""]
  | String c r =>
      match split_on sep r with
      | h :: t => if Ascii.eqb c sep then "" :: h :: t else String c h :: t
      | [] => []
      end
  end.

(** ** [DeepSpeedConfigModel] *)

Module Config.

(** Values of configuration fields. A config model instance carries its class
    name, its field values ([__dict__]) and [model_fields_set], the names of
    the fields the caller supplied or assigned. *)
Inductive PyVal : Type :=
| VNone
| VBool (b : bool)
| VInt (z : Z)
| VStr (s : string)
| VList (l : list PyVal)
| VObj (o : Model)
with Model : Type :=
| mkModel (cls : string) (attrs : gmap string PyVal) (fields_set : gset string).

Definition m_cls (m : Model) : string := let 'mkModel c _ _ := m in c.
Definition m_attrs (m : Model) : gmap string PyVal := let 'mkModel _ a _ := m in a.
Definition model_fields_set (m : Model) : gset string := let 'mkModel _ _ f := m in f.

Definition type_name (v : PyVal) : string :=
  match v with
  | VNone => "NoneType"
  | VBool _ => "bool"
  | VInt _ => "int"
  | VStr _ => "str"
  | VList _ => "list"
  | VObj o => m_cls o
  end.

(** The deprecation keywords of [pydantic.Field], kept in
    [json_schema_extra]; a keyword that was not given is [None]. *)
Record SchemaExtra : Type := mkExtra {
  deprecated : option bool;
  deprecated_msg : option string;
  new_param : option string;
  set_new_param : option bool;
  new_param_fn : option (PyVal -> Exc PyVal)
}.

(** Modelled from the spec: the schema engine's description of a declared
    field (pydantic's [FieldInfo], which is not part of this repository): its
    declared default ([None] for a required field), the field's own
    validation, which accepts a value as it is or rejects it, and the
    per-field metadata bag. *)
Record FieldInfo : Type := mkField {
  default : option PyVal;
  accepts : PyVal -> bool;
  json_schema_extra : option SchemaExtra
}.

(** [FieldInfo.is_required()] and [FieldInfo.get_default()]. *)
Definition is_required (fi : FieldInfo) : bool :=
  match default fi with
  | Some _ => false
  | None => true
  end.

Definition get_default (fi : FieldInfo) : PyVal :=
  match default fi with
  | Some d => d
  | None => VStr "PydanticUndefined"
  end.

(** A config class: [model_fields], in declaration order. *)
Record ModelClass : Type := mkClass {
  model_fields : list (string * FieldInfo)
}.

(** [model_fields.get(name)]. *)
Fixpoint fields_get (fields : list (string * FieldInfo)) (name : string) : option FieldInfo :=
  match fields with
  | [] => None
  | (n, fi) :: rest => if String.eqb n name then Some fi else fields_get rest name
  end.

(** [kwargs.get(key, default)] for each keyword the code reads. *)
Definition get_new_param_fn (kwargs : SchemaExtra) : PyVal -> Exc PyVal :=
  match new_param_fn kwargs with
  | Some f => f
  | None => fun x => Returns x
  end.

Definition get_new_param (kwargs : SchemaExtra) : string :=
  match new_param kwargs with Some s => s | None => "" end.

Definition get_deprecated_msg (kwargs : SchemaExtra) : string :=
  match deprecated_msg kwargs with Some s => s | None => "" end.

Definition get_set_new_param (kwargs : SchemaExtra) : bool :=
  match set_new_param kwargs with Some b => b | None => true end.

Definition get_deprecated (kwargs : SchemaExtra) : bool :=
  match deprecated kwargs with Some b => b | None => false end.

(** The test of [_deprecated_fields_check]:
    [json_schema_extra and json_schema_extra.get("deprecated", False)]. *)
Definition is_deprecated (fi : FieldInfo) : bool :=
  match json_schema_extra fi with
  | Some kw => get_deprecated kw
  | None => false
  end.

(** No entry of [fields] is a deprecated field. *)
Definition no_deprecated (fields : list (string * FieldInfo)) : Prop :=
  forall n f, In (n, f) fields -> is_deprecated f = false.

(** Truth value of a [str]. *)
Definition nonempty (s : string) : bool :=
  match s with EmptyString => false | String _ _ => true end.

(** [v != "auto"] is false for the text ["auto"] alone. *)
Definition is_auto (v : PyVal) : bool :=
  match v with
  | VStr s => String.eqb s "auto"
  | _ => false
  end.

(** The condition of the comprehension in [__init__]:
    [v != "auto" or k == "replace_method"]. *)
Definition keep (kv : string * PyVal) : bool :=
  negb (is_auto (snd kv)) || String.eqb (fst kv) "replace_method".

(** The mapping [__init__] hands to the schema engine. *)
Definition init_data (strict : bool) (data : gmap string PyVal) : gmap string PyVal :=
  if negb strict then filter (fun kv => Is_true (keep kv)) data else data.

(** No field of the class names [k], or a dotted path that starts at [k], as
    its [new_param]. *)
Definition not_a_replacement (fields : list (string * FieldInfo)) (k : string) : Prop :=
  forall n f kw,
    fields_get fields n = Some f ->
    json_schema_extra f = Some kw ->
    hd "" (split_on "." (get_new_param kw)) <> k.

Section Classes.

(** The config classes in scope, by name. *)
Variable classes : string -> option ModelClass.

(** [type(m).model_fields]. *)
Definition fields_of (m : Model) : Exc (list (string * FieldInfo)) :=
  match classes (m_cls m) with
  | Some c => Returns (model_fields c)
  | None => Raises (mkExc "NameError" ("name '" +:+ m_cls m +:+ "' is not defined") None)
  end.

(** [getattr(m, name)] for a field. *)
Definition getattr (m : Model) (name : string) : Exc PyVal :=
  match m_attrs m !! name with
  | Some v => Returns v
  | None =>
      Raises (AttributeError
        ("'" +:+ m_cls m +:+ "' object has no attribute '" +:+ name +:+ "'"))
  end.

(** Modelled from the spec: the schema engine's [delattr] on a model
    (pydantic's [BaseModel.__delattr__], not part of this repository),
    which the spec describes as resetting the field to its declared
    default; a name that is no declared field, or a field with no default
    to go back to, cannot be removed. [model_fields_set] is left as it
    is. *)
Definition delattr (m : Model) (name : string) : Exc Model :=
  exc_bind (fields_of m) (fun fields =>
  match fields_get fields name with
  | Some fi =>
      match default fi with
      | Some d =>
          Returns (mkModel (m_cls m) (<[name := d]> (m_attrs m)) (model_fields_set m))
      | None =>
          Raises (AttributeError
            ("'" +:+ m_cls m +:+ "' object has no default for '" +:+ name +:+ "'"))
      end
  | None =>
      Raises (AttributeError
        ("'" +:+ m_cls m +:+ "' object has no attribute '" +:+ name +:+ "'"))
  end).

(** Modelled from the spec: the schema engine's [setattr] on a model
    (pydantic's [BaseModel.__setattr__] under [validate_assignment=True]
    and [extra="forbid"], not part of this repository): the assignment
    triggers the field's own validation, stores the value and marks the
    field as set; an undeclared name is refused. *)
Definition setattr (m : Model) (name : string) (v : PyVal) : Exc Model :=
  exc_bind (fields_of m) (fun fields =>
  match fields_get fields name with
  | Some fi =>
      if accepts fi v then
        Returns (mkModel (m_cls m) (<[name := v]> (m_attrs m))
                         ({[name]} ∪ model_fields_set m))
      else
        Raises (mkExc "ValidationError"
          ("1 validation error for " +:+ m_cls m +:+ ": " +:+ name) None)
  | None =>
      Raises (ValueError
        ("'" +:+ m_cls m +:+ "' object has no field '" +:+ name +:+ "'"))
  end).

(** Modelled from the spec: validation of the declared fields against the
    raw mapping (part of pydantic's [BaseModel.__init__]): a supplied value
    goes through the field's validation, a missing one takes the declared
    default, which is validated too ([validate_default=True]); a required
    field that is missing is an error. *)
Fixpoint validate_fields (cname : string) (fields : list (string * FieldInfo))
    (data : gmap string PyVal) : Exc (gmap string PyVal) :=
  match fields with
  | [] => Returns ∅
  | (name, fi) :: rest =>
      let bad reason :=
        Raises (mkExc "ValidationError"
          ("1 validation error for " +:+ cname +:+ ": " +:+ name +:+ ": " +:+ reason) None) in
      exc_bind (validate_fields cname rest data) (fun attrs =>
      match data !! name with
      | Some v =>
          if accepts fi v then Returns (<[name := v]> attrs) else bad "Input is not valid"
      | None =>
          match default fi with
          | Some d =>
              if accepts fi d then Returns (<[name := d]> attrs) else bad "Input is not valid"
          | None => bad "Field required"
          end
      end)
  end.

(** Modelled from the spec: the schema engine's construction of a model
    from a raw mapping (pydantic's [BaseModel.__init__] under
    [extra="forbid"]): unknown fields are rejected, the declared fields are
    validated, and [model_fields_set] is the set of supplied names. *)
Definition BaseModel_init (cname : string) (data : gmap string PyVal) : Exc Model :=
  match classes cname with
  | None => Raises (mkExc "NameError" ("name '" +:+ cname +:+ "' is not defined") None)
  | Some c =>
      if forallb (fun k => bool_decide (is_Some (fields_get (model_fields c) k)))
                 (elements (dom data))
      then
        exc_bind (validate_fields cname (model_fields c) data) (fun attrs =>
        Returns (mkModel cname attrs (dom data)))
      else
        Raises (mkExc "ValidationError"
          ("1 validation error for " +:+ cname +:+ ": Extra inputs are not permitted") None)
  end.

(** [reduce(getattr, segs, m)] followed by the read of
    [model_fields_set]: every object on the way must be a model. *)
Fixpoint resolve (m : Model) (segs : list string) : Exc Model :=
  match segs with
  | [] => Returns m
  | s :: rest =>
      exc_bind (getattr m s) (fun v =>
      match v with
      | VObj child => resolve child rest
      | _ =>
          Raises (AttributeError
            ("'" +:+ type_name v +:+ "' object has no attribute '" +:+
             hd "model_fields_set" rest +:+ "'"))
      end)
  end.

(** The sub-object reached by [segs] is shared with its owner: what
    [setattr] did to it is seen from the root. [put_path m segs sub] is [m]
    once the object at [segs] has become [sub]. *)
Fixpoint put_path (m : Model) (segs : list string) (sub : Model) : Model :=
  match segs with
  | [] => sub
  | s :: rest =>
      match m_attrs m !! s with
      | Some (VObj child) =>
          mkModel (m_cls m) (<[s := VObj (put_path child rest sub)]> (m_attrs m))
                  (model_fields_set m)
      | _ => m
      end
  end.

Definition warning_msg (dep_field new_field dep_msg : string) : string :=
  "Config parameter " +:+ dep_field +:+ " is deprecated" +:+
  (if nonempty new_field then " use " +:+ new_field +:+ " instead" else "") +:+
  (if nonempty dep_msg then ". " +:+ dep_msg else "").

Definition removing_msg (dep_field : string) : string :=
  "Tried removing deprecated '" +:+ dep_field +:+ "' from config".

Definition setting_msg (new_field dep_field : string) : string :=
  "Tried setting value for '" +:+ new_field +:+ "' with value from deprecated '" +:+
  dep_field +:+ "'".

Definition conflict_msg (dep_field new_field : string) : string :=
  "Cannot provide deprecated parameter '" +:+ dep_field +:+
  "' and replacing parameter '" +:+ new_field +:+ "' together".

(** [DeepSpeedConfigModel._process_deprecated_field]; the model it returns
    is [self] after the in-place updates. *)
Definition _process_deprecated_field (self : Model) (dep_field : string) : Run Model :=
  let pydantic_config := self in
  let fields_set := model_fields_set pydantic_config in
  fields <- lift (fields_of pydantic_config) ;;
  field_info <- lift (match fields_get fields dep_field with
                      | Some fi => Returns fi
                      | None => Raises (KeyError (repr_str dep_field))
                      end) ;;
  kwargs <- lift (match json_schema_extra field_info with
                  | Some kw => Returns kw
                  | None => Raises (AttributeError
                              "'NoneType' object has no attribute 'get'")
                  end) ;;
  let new_param_fn := get_new_param_fn kwargs in
  value <- lift (getattr pydantic_config dep_field) ;;
  param_value <- lift (new_param_fn value) ;;
  let new_field := get_new_param kwargs in
  let dep_msg := get_deprecated_msg kwargs in
  if bool_decide (dep_field ∈ fields_set) then
    logger WARNING (warning_msg dep_field new_field dep_msg) ;;;
    if nonempty new_field && get_set_new_param kwargs then
      root <- try_log_raise (delattr pydantic_config dep_field)
                            (removing_msg dep_field) ;;
      let new_param_nested := split_on "." new_field in
      let leading :=
        if (1 <? length new_param_nested)%nat then removelast new_param_nested
        else [] in
      pydantic_config <- lift (resolve root leading) ;;
      let fields_set := model_fields_set pydantic_config in
      let new_param_name := List.last new_param_nested "" in
      assert (negb (bool_decide (new_param_name ∈ fields_set)))
             (conflict_msg dep_field new_field) ;;;
      pydantic_config <- try_log_raise
                           (setattr pydantic_config new_param_name param_value)
                           (setting_msg new_field dep_field) ;;
      ret (put_path root leading pydantic_config)
    else ret self
  else ret self.

(** The steps of [_process_deprecated_field] that follow the warning, for a
    field with a replacement to set: removal, resolution of the dotted path,
    the conflict check and the assignment. *)
Definition forward_steps (self : Model) (dep_field new_field : string)
    (param_value : PyVal) : Run Model :=
  root <- try_log_raise (delattr self dep_field) (removing_msg dep_field) ;;
  let leading := removelast (split_on "." new_field) in
  let new_param_name := List.last (split_on "." new_field) "" in
  pydantic_config <- lift (resolve root leading) ;;
  assert (negb (bool_decide (new_param_name ∈ model_fields_set pydantic_config)))
         (conflict_msg dep_field new_field) ;;;
  pydantic_config <- try_log_raise
                       (setattr pydantic_config new_param_name param_value)
                       (setting_msg new_field dep_field) ;;
  ret (put_path root leading pydantic_config).

(** The loop of [_deprecated_fields_check] over [model_fields.items()]. *)
Fixpoint check_fields (fields : list (string * FieldInfo)) (self : Model) : Run Model :=
  match fields with
  | [] => ret self
  | (field_name, field_info) :: rest =>
      if is_deprecated field_info then
        self <- _process_deprecated_field self field_name ;;
        check_fields rest self
      else check_fields rest self
  end.

(** [DeepSpeedConfigModel._deprecated_fields_check]. *)
Definition _deprecated_fields_check (self : Model) : Run Model :=
  fields <- lift (fields_of self) ;;
  check_fields fields self.

(** [DeepSpeedConfigModel.__init__(self, strict=False, **data)] for the
    class named [cname]. *)
Definition __init__ (cname : string) (strict : bool) (data : gmap string PyVal)
    : Run Model :=
  let data := init_data strict data in
  self <- lift (BaseModel_init cname data) ;;
  _deprecated_fields_check self.

(** The state of a field [k] the caller did not supply: the class of the
    model, the value [d] of the field and its absence from
    [model_fields_set]. *)
Definition still_default (cname k : string) (d : PyVal) (m : Model) : Prop :=
  m_cls m = cname /\ m_attrs m !! k = Some d /\ k ∉ model_fields_set m.

(** [get_config_default(config, field_name)] for a config class. *)
Definition get_config_default (config : string) (field_name : string) : Run PyVal :=
  fields <- lift (match classes config with
                  | Some c => Returns (model_fields c)
                  | None => Raises (mkExc "NameError"
                              ("name '" +:+ config +:+ "' is not defined") None)
                  end) ;;
  assert (bool_decide (is_Some (fields_get fields field_name)))
         ("'" +:+ field_name +:+ "' is not a field in <class '" +:+ config +:+ "'>") ;;;
  match fields_get fields field_name with
  | Some fi =>
      assert (negb (is_required fi))
             ("'" +:+ field_name +:+
              "' is a required field and does not have a default value") ;;;
      ret (get_default fi)
  | None => raise (AttributeError "'NoneType' object has no attribute 'is_required'")
  end.

End Classes.

End Config.

(** ** Number formatting of Python's [format] *)

Module Fmt.

(** [w] decimal digits of [n], most significant first (leading zeros kept). *)
Fixpoint fixed_digits (w : nat) (n : Z) : list ascii :=
  match w with
  | O => []
  | S k => digit_char ((n / 10 ^ Z.of_nat k) mod 10) :: fixed_digits k n
  end.

(** The largest [x] with [10 ^ x <= n], for [n >= 1] below [10 ^ fuel]. *)
Fixpoint ilog10_fuel (fuel : nat) (n : Z) : Z :=
  match fuel with
  | O => 0
  | S f => if n <? 10 then 0 else 1 + ilog10_fuel f (n / 10)
  end.

Definition ilog10 (n : Z) : Z := ilog10_fuel (S (Z.to_nat (Z.log2 n))) n.

(** The integer nearest to [n / d], a tie going to the even one. *)
Definition round_half_even (n d : Z) : Z :=
  let q := n / d in
  let r := n mod d in
  if (d <? 2 * r) || ((2 * r =? d) && Z.odd q) then q + 1 else q.

(** The exponent of an [e] format: a sign and at least two digits. *)
Definition exponent_text (x : Z) : string :=
  let ds := digits (Z.abs x) in
  let ds := if Z.abs x <? 10 then "0"%char :: ds else ds in
  String "e" (String (if x <? 0 then "-"%char else "+"%char) (string_of_list_ascii ds)).

(** The largest [x] with [10 ^ x <= n / d], for [n, d > 0]. *)
Definition decimal_exponent (n d : Z) : Z :=
  if d <=? n then ilog10 (n / d)
  else
    let j := ilog10 (d / n) in
    if d <=? n * 10 ^ j then - j else - (j + 1).

(** [n / d * 10 ^ (- p)] as a fraction. *)
Definition scaled (n d p : Z) : Z * Z :=
  if 0 <=? p then (n, d * 10 ^ p) else (n * 10 ^ (- p), d).

(** Python's [f"{v:e}"] for the positive number [v = n / d]: seven
    significant digits, correctly rounded. *)
Definition format_e_pos (n d : Z) : string :=
  let x := decimal_exponent n d in
  let '(sn, sd) := scaled n d (x - 6) in
  let q := round_half_even sn sd in
  let '(q, x) := if q =? 10 ^ 7 then (10 ^ 6, x + 1) else (q, x) in
  String (digit_char (q / 10 ^ 6))
    (String "." (string_of_list_ascii (fixed_digits 6 q) +:+ exponent_text x)).

(** The value of a positive finite float [m * 2 ^ e] as a fraction. *)
Definition float_num (m : positive) (e : Z) : Z :=
  if 0 <=? e then Z.pos m * 2 ^ e else Z.pos m.

Definition float_den (e : Z) : Z :=
  if 0 <=? e then 1 else 2 ^ (- e).

(** Python's [float(z)] for an [int] [z > 0], as the integer the float is
    worth: [z] rounded to 53 significant bits, a tie going to the even
    mantissa; beyond the largest float it raises. *)
Definition float_of_int (z : Z) : Exc Z :=
  let nbits := Z.log2 z + 1 in
  let v :=
    if nbits <=? 53 then z
    else
      let sh := nbits - 53 in
      round_half_even z (2 ^ sh) * 2 ^ sh in
  if 2 ^ 1024 <=? v then Raises (OverflowError "int too large to convert to float")
  else Returns v.

(** Python's [f"{z:e}"] for an [int] [z > 0]. *)
Definition format_e_int (z : Z) : Exc string :=
  exc_bind (float_of_int z) (fun v => Returns (format_e_pos v 1)).

(** Python's [f"{f:e}"] for a [float]. *)
Definition format_e_float (f : spec_float) : string :=
  match f with
  | S754_zero s => if s then "-0.000000e+00" else "0.000000e+00"
  | S754_infinity s => if s then "-inf" else "inf"
  | S754_nan => "nan"
  | S754_finite s m e =>
      let body := format_e_pos (float_num m e) (float_den e) in
      if s then String "-" body else body
  end.

(** [f > 1e3] for a [float]; [z > 1e3] for an [int] is [1000 <? z]. *)
Definition float_gt_1e3 (f : spec_float) : bool :=
  match f with
  | S754_infinity false => true
  | S754_finite false m e => 1000 * float_den e <? float_num m e
  | _ => false
  end.

(** *** The shortest text that reads back as the same float *)

(** The float [m * 2 ^ e] and the two halfway points to its neighbours, in
    units of [2 ^ (e - 2)]: the neighbour below a power of two is half as
    far away. *)
Definition below_mid (m : positive) (e : Z) : Z :=
  if (Z.pos m =? 2 ^ 52) && (-1074 <? e) then 4 * Z.pos m - 1 else 4 * Z.pos m - 2.

Definition above_mid (m : positive) : Z := 4 * Z.pos m + 2.

(** Does [c * 10 ^ p] read back as [m * 2 ^ e]? It must lie between the
    halfway points, which count when the mantissa is even. *)
Definition reads_back (m : positive) (e : Z) (c p : Z) : bool :=
  let '(cn, cd) := scaled c 1 (- p) in
  (* c * 10 ^ p = cn / cd; a unit is 2 ^ (e - 2) = un / ud *)
  let '(un, ud) := if 0 <=? e - 2 then (2 ^ (e - 2), 1) else (1, 2 ^ (2 - e)) in
  let lo := below_mid m e * un * cd in
  let hi := above_mid m * un * cd in
  let v := cn * ud in
  if Z.even (Z.pos m) then (lo <=? v) && (v <=? hi) else (lo <? v) && (v <? hi).

(** The shortest digits, tried from one digit up: [(c, p)] such that
    [c * 10 ^ p] reads back as the float, the nearer of the two candidates
    around the float when both do. *)
Fixpoint shortest_from (fuel : nat) (ndig : Z) (m : positive) (e : Z) (x : Z) : Z * Z :=
  let n := float_num m e in
  let d := float_den e in
  let p := x - ndig + 1 in
  let '(sn, sd) := scaled n d p in
  let c_lo := sn / sd in
  let c_hi := c_lo + 1 in
  let ok_lo := (0 <? c_lo) && reads_back m e c_lo p in
  let ok_hi := reads_back m e c_hi p in
  let r := sn mod sd in
  let pick :=
    if ok_lo && ok_hi then
      if 2 * r <? sd then Some c_lo
      else if sd <? 2 * r then Some c_hi
      else if Z.even c_lo then Some c_lo else Some c_hi
    else if ok_lo then Some c_lo
    else if ok_hi then Some c_hi
    else None in
  match pick, fuel with
  | Some c, _ => (c, p)
  | None, O => (c_lo, p)
  | None, S f => shortest_from f (ndig + 1) m e x
  end.

(** Trailing zeros of [c] moved into the exponent. *)
Fixpoint strip_zeros (fuel : nat) (c p : Z) : Z * Z :=
  match fuel with
  | O => (c, p)
  | S f => if (c mod 10 =? 0) && (0 <? c) then strip_zeros f (c / 10) (p + 1) else (c, p)
  end.

Fixpoint zeros (n : nat) : list ascii :=
  match n with
  | O => []
  | S k => "0"%char :: zeros k
  end.

(** Python's [repr] of the positive finite float [m * 2 ^ e]. *)
Definition repr_pos (m : positive) (e : Z) : string :=
  let x := decimal_exponent (float_num m e) (float_den e) in
  let '(c, p) := shortest_from 17 1 m e x in
  let '(c, p) := strip_zeros 20 c p in
  let ds := digits c in
  let nd := Z.of_nat (length ds) in
  let decpt := nd + p in
  if (decpt <=? -4) || (16 <? decpt) then
    let frac := tl ds in
    string_of_list_ascii
      (hd "0"%char ds :: (match frac with [] => [] | _ => "."%char :: frac end))
    +:+ exponent_text (decpt - 1)
  else if decpt <=? 0 then
    string_of_list_ascii ("0"%char :: "."%char :: zeros (Z.to_nat (- decpt)) ++ ds)
  else if decpt <? nd then
    string_of_list_ascii
      (firstn (Z.to_nat decpt) ds ++ "."%char :: skipn (Z.to_nat decpt) ds)
  else
    string_of_list_ascii (ds ++ zeros (Z.to_nat (decpt - nd)) ++ ["."%char; "0"%char]).

(** Python's [f"{f}"], that is [repr(f)], for a [float]. *)
Definition float_repr (f : spec_float) : string :=
  match f with
  | S754_zero s => if s then "-0.0" else "0.0"
  | S754_infinity s => if s then "-inf" else "inf"
  | S754_nan => "nan"
  | S754_finite s m e =>
      if s then String "-" (repr_pos m e) else repr_pos m e
  end.

End Fmt.

(** ** [ScientificNotationEncoder] *)

Module Encoder.

(** The values the encoder is given: [None], [bool], [int], [float], [str],
    a sequence, and a mapping with text keys in its iteration order. *)
Inductive JVal : Type :=
| JNull
| JBool (b : bool)
| JInt (z : Z)
| JFloat (f : spec_float)
| JStr (s : string)
| JList (l : list JVal)
| JDict (items : list (string * JVal)).

(** [json.encoder.py_encode_basestring_ascii]: the text between double
    quotes, with the quote, the backslash and everything outside the
    printable ASCII range escaped. *)
Definition escape_char (c : ascii) : string :=
  let n := nat_of_ascii c in
  if Ascii.eqb c dquote then String "\" (String dquote "")
  else if Ascii.eqb c "\"%char then "\\"
  else if Ascii.eqb c "010"%char then "\n"
  else if Ascii.eqb c "013"%char then "\r"
  else if Ascii.eqb c "009"%char then "\t"
  else if Ascii.eqb c "008"%char then "\b"
  else if Ascii.eqb c "012"%char then "\f"
  else if (32 <=? n)%nat && (n <=? 126)%nat then String c ""
  else
    String "\" (String "u" (String "0" (String "0"
      (String (hex_char (n / 16)) (String (hex_char (n mod 16)) ""))))).

Fixpoint escape_body (s : string) : string :=
  match s with
  | EmptyString => ""
  | String c r => escape_char c +:+ escape_body r
  end.

Definition encode_basestring_ascii (s : string) : string :=
  String dquote (escape_body s +:+ String dquote "").

(** The chunks [json.JSONEncoder.iterencode] yields for the values the
    subclass leaves to it. *)
Definition super_iterencode (o : JVal) : list string :=
  match o with
  | JStr s => [encode_basestring_ascii s]
  | _ => ["null"]
  end.

(** [ScientificNotationEncoder.iterencode(self, o, _one_shot=False, level=0)];
    [self_indent] is [self.indent]. For a huge [int] the format raises. *)
Fixpoint iterencode (self_indent : option Z) (o : JVal) (level : Z) {struct o} : Exc string :=
  let indent := match self_indent with Some i => i | None => 4 end in
  let prefix_close := spaces (level * indent) in
  let level := level + 1 in
  let prefix := spaces (level * indent) in
  match o with
  | JBool b => Returns (if b then "true" else "false")
  | JFloat f =>
      if Fmt.float_gt_1e3 f then Returns (Fmt.format_e_float f)
      else Returns (Fmt.float_repr f)
  | JInt z =>
      if 1000 <? z then Fmt.format_e_int z
      else Returns (str_int z)
  | JDict items =>
      let fix each (kvs : list (string * JVal)) : Exc (list string) :=
        match kvs with
        | [] => Returns []
        | (k, v) :: rest =>
            exc_bind (iterencode self_indent v level) (fun s =>
            exc_bind (each rest) (fun x =>
            Returns ((String "010" prefix +:+ String dquote k +:+ String dquote ": " +:+ s) :: x)))
        end in
      exc_bind (each items) (fun x =>
      Returns ("{" +:+ join ", " x +:+ String "010" prefix_close +:+ "}"))
  | JList l =>
      let fix each (vs : list JVal) : Exc (list string) :=
        match vs with
        | [] => Returns []
        | v :: rest =>
            exc_bind (iterencode self_indent v 0) (fun s =>
            exc_bind (each rest) (fun x => Returns (s :: x)))
        end in
      exc_bind (each l) (fun x => Returns ("[" +:+ join ", " x +:+ "]"))
  | JStr _ | JNull => Returns (join (String "010" ", ") (super_iterencode o))
  end.

(** Exponential notation with a lowercase [e] and six fractional digits: one
    leading digit that is not zero, a point, six digits, [e], the sign [+]
    and an exponent of at least two digits. *)
Definition exp_notation (text : string) : Prop :=
  exists (lead : ascii) (frac ex : list ascii),
    text = String lead (String "." (string_of_list_ascii frac +:+
             String "e" (String "+" (string_of_list_ascii ex)))) /\
    is_digit lead = true /\ lead <> "0"%char /\
    length frac = 6%nat /\ forallb is_digit frac = true /\
    (2 <= length ex)%nat /\ forallb is_digit ex = true.


(** The layout of a mapping in the words of the spec: every pair on a line of
    its own, indented by the nesting depth times the indent width, and the
    closing brace on a line of its own at the parent's indentation. *)
Definition render_pair (indent depth : Z) (key value : string) : string :=
  String "010" (spaces (depth * indent)) +:+ String dquote key +:+ String dquote ": " +:+ value.

Definition render_mapping (indent parent_depth : Z) (pairs : list (string * string)) : string :=
  "{" +:+ join ", " (map (fun kv => render_pair indent (parent_depth + 1) (fst kv) (snd kv)) pairs)
      +:+ String "010" (spaces (parent_depth * indent)) +:+ "}".

(** The layout of a sequence: the elements in one line between brackets. *)
Definition render_sequence (elements : list string) : string :=
  "[" +:+ join ", " elements +:+ "]".

(** [self.indent if self.indent is not None else 4]. *)
Definition indent_width (self_indent : option Z) : Z :=
  match self_indent with Some i => i | None => 4 end.

End Encoder.

(** ** Config classes used to exercise the model *)

Module Examples.
Import Config.

Definition is_int (v : PyVal) : bool :=
  match v with VInt _ => true | _ => false end.

Definition is_str (v : PyVal) : bool :=
  match v with VStr _ => true | _ => false end.

Definition is_instance (c : string) (v : PyVal) : bool :=
  match v with VObj o => String.eqb (m_cls o) c | _ => false end.

Fixpoint all_digits (s : string) : bool :=
  match s with
  | EmptyString => true
  | String c r => is_digit c && all_digits r
  end.

(** [lambda x: int(x)] on text: a run of decimal digits is read as a number,
    any other text raises [ValueError]. *)
Definition int_of_text (v : PyVal) : Exc PyVal :=
  match v with
  | VStr s =>
      if nonempty s && all_digits s
      then Returns (VInt (digits_val (list_ascii_of_string s)))
      else Raises (ValueError ("invalid literal for int() with base 10: " +:+ repr_str s))
  | _ => Raises (mkExc "TypeError" "int() argument must be a string or a number" None)
  end.

(** The class of the docstring of [DeepSpeedConfigModel]:
    [my_new_field: int = 0] and the deprecated [my_old_field: str]. *)
Definition MyExampleConfig : ModelClass :=
  mkClass
    [("my_new_field", mkField (Some (VInt 0)) is_int None);
     ("my_old_field",
      mkField (Some (VStr "0")) is_str
        (Some (mkExtra (Some true) None (Some "my_new_field") None (Some int_of_text))))].

(** A class whose deprecated field [old] moved into the sub-config [sub]. *)
Definition Sub : ModelClass :=
  mkClass [("x", mkField (Some (VInt 1)) is_int None)].

Definition sub_default : Model := mkModel "Sub" (<["x" := VInt 1]> ∅) ∅.

Definition Outer : ModelClass :=
  mkClass
    [("sub", mkField (Some (VObj sub_default)) (is_instance "Sub") None);
     ("old",
      mkField (Some (VInt 0)) is_int
        (Some (mkExtra (Some true) (Some "gone soon") (Some "sub.x") None None)))].

(** A class whose deprecated field [size_old] is text while its replacement
    [size] is an [int], with no conversion function. *)
Definition Typed : ModelClass :=
  mkClass
    [("size", mkField (Some (VInt 0)) is_int None);
     ("size_old",
      mkField (Some (VStr "0")) is_str
        (Some (mkExtra (Some true) None (Some "size") None None)))].

(** A class whose deprecated field [old] is required, and a field [limit]
    with the default 7. *)
Definition Legacy : ModelClass :=
  mkClass
    [("new", mkField (Some (VInt 0)) is_int None);
     ("limit", mkField (Some (VInt 7)) is_int None);
     ("old",
      mkField None is_int
        (Some (mkExtra (Some true) None (Some "new") None None)))].

(** A class whose deprecated field [count_old] defaults to the empty text,
    on which its conversion function raises. *)
Definition Fragile : ModelClass :=
  mkClass
    [("count", mkField (Some (VInt 0)) is_int None);
     ("count_old",
      mkField (Some (VStr "")) is_str
        (Some (mkExtra (Some true) None (Some "count") None (Some int_of_text))))].

Definition classes (name : string) : option ModelClass :=
  if String.eqb name "MyExampleConfig" then Some MyExampleConfig
  else if String.eqb name "Sub" then Some Sub
  else if String.eqb name "Outer" then Some Outer
  else if String.eqb name "Typed" then Some Typed
  else if String.eqb name "Legacy" then Some Legacy
  else if String.eqb name "Fragile" then Some Fragile
  else None.

(** [Outer(old=9)] as validation leaves it. *)
Definition outer_old : Model :=
  mkModel "Outer" (<["old" := VInt 9]> (<["sub" := VObj sub_default]> ∅)) {["old"]}.

(** [Outer(old=9, sub=Sub(x=3))] as validation leaves it. *)
Definition sub_x3 : Model := mkModel "Sub" (<["x" := VInt 3]> ∅) {["x"]}.

Definition outer_both : Model :=
  mkModel "Outer" (<["old" := VInt 9]> (<["sub" := VObj sub_x3]> ∅)) {["old"; "sub"]}.

(** [Legacy(old=3)] and [Typed(size_old="5")] as validation leaves them. *)
Definition legacy_old : Model :=
  mkModel "Legacy"
    (<["old" := VInt 3]> (<["limit" := VInt 7]> (<["new" := VInt 0]> ∅))) {["old"]}.

Definition typed_old : Model :=
  mkModel "Typed" (<["size_old" := VStr "5"]> (<["size" := VInt 0]> ∅)) {["size_old"]}.

(** [Fragile()] as validation leaves it. *)
Definition fragile_empty : Model :=
  mkModel "Fragile" (<["count_old" := VStr ""]> (<["count" := VInt 0]> ∅)) ∅.

End Examples.

(** ** [DeepSpeedConfigObject] *)

Module ConfigObject.
Import Encoder.

(** [list(text)]: the characters of a text, each a text of its own. *)
Definition chars (text : string) : list string :=
  map (fun c => String c "") (list_ascii_of_string text).

(** [json.JSONEncoder.encode(o)] of the standard library, as the subclass
    inherits it: a [str] is encoded on the spot; for any other value the result
    of [iterencode], here a text and no list of chunks, is turned into a list
    and joined. *)
Definition encode (self_indent : option Z) (o : JVal) : Exc string :=
  match o with
  | JStr s => Returns (encode_basestring_ascii s)
  | _ =>
      exc_bind (iterencode self_indent o 0) (fun chunks =>
      Returns (join "" (chars chunks)))
  end.

(** [json.dumps(obj, sort_keys=.., indent=.., cls=ScientificNotationEncoder)]:
    the encoder is built with these options and asked to [encode]; its
    [iterencode] never reads [sort_keys]. *)
Definition dumps (obj : JVal) (sort_keys : bool) (indent : option Z) : Exc string :=
  encode indent obj.

(** [DeepSpeedConfigObject.repr]: the attributes of the object, [self.__dict__],
    in the order they were set. *)
Definition repr (self__dict__ : list (string * JVal)) : list (string * JVal) :=
  self__dict__.

(** [DeepSpeedConfigObject.__repr__]. *)
Definition __repr__ (self__dict__ : list (string * JVal)) : Exc string :=
  dumps (JDict self__dict__) true (Some 4).

End ConfigObject.

(** ** Shapes of encoded values *)

Module Shape.
Import Encoder.

(** No mapping anywhere in the value. *)
Fixpoint no_mapping (o : JVal) : bool :=
  match o with
  | JDict _ => false
  | JList l => forallb no_mapping l
  | _ => true
  end.


(** The texts [f] gives for the elements of [l], in their order; the first
    element on which [f] raises ends the traversal with that exception. *)
Fixpoint traverse {A : Type} (f : A -> Exc string) (l : list A) : Exc (list string) :=
  match l with
  | [] => Returns []
  | a :: rest =>
      exc_bind (f a) (fun text =>
      exc_bind (traverse f rest) (fun texts => Returns (text :: texts)))
  end.

(** A text without a line feed. *)
Definition one_line (text : string) : Prop := contains_char "010" text = false.

(** A text with all commas taken out: [text.replace(",", "")]. *)
Fixpoint without_commas (text : string) : string :=
  match text with
  | EmptyString => EmptyString
  | String c rest =>
      if Ascii.eqb c "," then without_commas rest else String c (without_commas rest)
  end.


End Shape.

(** ** More example classes *)

Module MoreExamples.
Import Config Examples.

(** A class with two deprecated fields that are not forwarded: [old_flag] has
    no replacement, [old_size] names [size] but with [set_new_param=False]. *)
Definition Retired : ModelClass :=
  mkClass
    [("size", mkField (Some (VInt 0)) is_int None);
     ("old_flag",
      mkField (Some (VBool false)) (fun _ => true)
        (Some (mkExtra (Some true) (Some "it has no effect") None None None)));
     ("old_size",
      mkField (Some (VInt 0)) is_int
        (Some (mkExtra (Some true) None (Some "size") (Some false) None)))].

(** A class with no deprecated field; [name] is required. *)
Definition Plain : ModelClass :=
  mkClass
    [("stage", mkField (Some (VInt 0)) is_int None);
     ("replace_method", mkField (Some (VStr "auto")) is_str None);
     ("name", mkField None is_str None)].

Definition classes (name : string) : option ModelClass :=
  if String.eqb name "Retired" then Some Retired
  else if String.eqb name "Plain" then Some Plain
  else Examples.classes name.

(** [Retired(old_flag=True, old_size=5)] as validation leaves it. *)
Definition retired_both : Model :=
  mkModel "Retired"
    (<["old_flag" := VBool true]> (<["old_size" := VInt 5]> (<["size" := VInt 0]> ∅)))
    {["old_flag"; "old_size"]}.

End MoreExamples.

(** * Decimal digits *)

Lemma is_digit_digit_char (d : Z) : 0 <= d <= 9 -> is_digit (digit_char d) = true.
Proof.
  intros H.
  assert (Hd : d = 0 \/ d = 1 \/ d = 2 \/ d = 3 \/ d = 4 \/ d = 5 \/ d = 6 \/ d = 7 \/
               d = 8 \/ d = 9) by lia.
  repeat (destruct Hd as [->|Hd]; [reflexivity|]). subst d. reflexivity.
Qed.

Lemma digit_val_digit_char (d : Z) : 0 <= d <= 9 -> digit_val (digit_char d) = d.
Proof.
  intros H.
  assert (Hd : d = 0 \/ d = 1 \/ d = 2 \/ d = 3 \/ d = 4 \/ d = 5 \/ d = 6 \/ d = 7 \/
               d = 8 \/ d = 9) by lia.
  repeat (destruct Hd as [->|Hd]; [reflexivity|]). subst d. reflexivity.
Qed.

Lemma digit_char_nonzero (d : Z) : 1 <= d <= 9 -> digit_char d <> "0"%char.
Proof.
  intros H Heq.
  assert (Hv : digit_val (digit_char d) = 0) by (rewrite Heq; reflexivity).
  rewrite digit_val_digit_char in Hv by lia. lia.
Qed.

Lemma digits_fuel_all_digits (fuel : nat) : forall (n : Z) (acc : list ascii),
  0 <= n ->
  forallb is_digit acc = true ->
  forallb is_digit (digits_fuel fuel n acc) = true.
Proof.
  induction fuel as [|f IH]; intros n acc Hn Hacc; cbn [digits_fuel].
  - exact Hacc.
  - destruct (n <? 10) eqn:Hlt.
    + apply Z.ltb_lt in Hlt. cbn [forallb].
      rewrite is_digit_digit_char by lia. exact Hacc.
    + apply IH.
      * apply Z.div_pos; lia.
      * cbn [forallb]. rewrite is_digit_digit_char; [exact Hacc|].
        pose proof (Z.mod_pos_bound n 10). lia.
Qed.

Lemma digits_fuel_value (fuel : nat) : forall (n : Z) (acc : list ascii),
  0 <= n < 10 ^ Z.of_nat fuel ->
  fold_left (fun a c => 10 * a + digit_val c) (digits_fuel fuel n acc) 0 =
  fold_left (fun a c => 10 * a + digit_val c) acc n.
Proof.
  induction fuel as [|f IH]; intros n acc Hn.
  - change (10 ^ Z.of_nat 0) with 1 in Hn. assert (n = 0) by lia. subst n. reflexivity.
  - cbn [digits_fuel]. destruct (n <? 10) eqn:Hlt.
    + apply Z.ltb_lt in Hlt. cbn [fold_left]. rewrite digit_val_digit_char by lia.
      f_equal.
    + apply Z.ltb_ge in Hlt. rewrite IH.
      * cbn [fold_left].
        rewrite digit_val_digit_char by (pose proof (Z.mod_pos_bound n 10); lia).
        f_equal. pose proof (Z.div_mod n 10). lia.
      * rewrite Nat2Z.inj_succ, Z.pow_succ_r in Hn by lia.
        split; [apply Z.div_pos; lia|].
        apply Z.div_lt_upper_bound; lia.
Qed.

Lemma digits_fuel_length (fuel : nat) (n : Z) (acc : list ascii) :
  (length acc < length (digits_fuel (S fuel) n acc))%nat.
Proof.
  revert n acc. induction fuel as [|f IH]; intros n acc.
  - cbn [digits_fuel]. destruct (n <? 10); cbn [length]; lia.
  - change (digits_fuel (S (S f)) n acc)
      with (if n <? 10 then digit_char n :: acc
            else digits_fuel (S f) (n / 10) (digit_char (n mod 10) :: acc)).
    destruct (n <? 10).
    + cbn [length]. lia.
    + specialize (IH (n / 10) (digit_char (n mod 10) :: acc)).
      cbn [length] in IH |- *. lia.
Qed.

Lemma enough_fuel (n : Z) : 0 <= n -> n < 10 ^ Z.of_nat (S (Z.to_nat (Z.log2 n))).
Proof.
  intros Hn.
  rewrite Nat2Z.inj_succ, Z2Nat.id by apply Z.log2_nonneg.
  destruct (Z.eq_dec n 0) as [->|Hne].
  - change (Z.log2 0) with 0. lia.
  - pose proof (Z.log2_spec n ltac:(lia)) as [_ Hup].
    eapply Z.lt_le_trans; [exact Hup|].
    apply Z.pow_le_mono_l. lia.
Qed.

Lemma digits_all_digits (n : Z) : 0 <= n -> forallb is_digit (digits n) = true.
Proof.
  intros Hn. apply digits_fuel_all_digits; [exact Hn|reflexivity].
Qed.

Lemma digits_value (n : Z) : 0 <= n -> digits_val (digits n) = n.
Proof.
  intros Hn. unfold digits_val, digits. rewrite digits_fuel_value.
  - reflexivity.
  - split; [exact Hn|apply enough_fuel; exact Hn].
Qed.

Lemma digits_nonempty (n : Z) : digits n <> [].
Proof.
  unfold digits.
  pose proof (digits_fuel_length (Z.to_nat (Z.log2 n)) n []) as H.
  destruct (digits_fuel _ n []); [cbn [length] in H; lia|discriminate].
Qed.

Lemma digits_two (n : Z) : 10 <= n -> (2 <= length (digits n))%nat.
Proof.
  intros Hn. unfold digits.
  assert (Hlog : 3 <= Z.log2 n).
  { apply Z.log2_le_pow2; lia. }
  destruct (Z.to_nat (Z.log2 n)) as [|f] eqn:Hf; [lia|].
  change (digits_fuel (S (S f)) n [])
    with (if n <? 10 then [digit_char n]
          else digits_fuel (S f) (n / 10) [digit_char (n mod 10)]).
  destruct (n <? 10) eqn:Hlt; [apply Z.ltb_lt in Hlt; lia|].
  pose proof (digits_fuel_length f (n / 10) [digit_char (n mod 10)]) as H.
  cbn [length] in H. lia.
Qed.

(** * [pp_int] *)

Section PpIntProperties.
Import PpInt.

Lemma groups_from_right_cons (todo cur : list ascii) :
  exists g gs, groups_from_right todo cur = g :: gs.
Proof.
  revert cur. induction todo as [|c rest IH]; intros cur; simpl.
  - eauto.
  - destruct (length cur =? 3)%nat; eauto.
Qed.

Lemma groups_from_right_spec (todo : list ascii) : forall cur : list ascii,
  (length cur <= 3)%nat ->
  (todo <> [] \/ cur <> []) ->
  let gs := groups_from_right todo cur in
  concat (rev gs) = rev todo ++ cur /\
  Forall (fun g => length g = 3%nat) (removelast gs) /\
  (1 <= length (List.last gs []) <= 3)%nat.
Proof.
  induction todo as [|c rest IH]; intros cur Hlen Hne; simpl.
  - repeat split.
    + apply app_nil_r.
    + constructor.
    + destruct cur; [destruct Hne; congruence|simpl; lia].
    + exact Hlen.
  - destruct (length cur =? 3)%nat eqn:Hfull.
    + apply Nat.eqb_eq in Hfull.
      destruct (IH [c]) as (Hcat & Hall & Hlast); [simpl; lia|right; discriminate|].
      destruct (groups_from_right_cons rest [c]) as (g & gs & Hgs).
      rewrite Hgs in *. repeat split.
      * simpl in Hcat |- *. rewrite concat_app, Hcat. simpl.
        rewrite app_nil_r, <- app_assoc. reflexivity.
      * constructor; assumption.
      * apply Hlast.
      * apply Hlast.
    + apply Nat.eqb_neq in Hfull.
      destruct (IH (c :: cur)) as (Hcat & Hall & Hlast);
        [simpl; lia|right; discriminate|].
      repeat split.
      * rewrite Hcat, <- app_assoc. reflexivity.
      * exact Hall.
      * apply Hlast.
      * apply Hlast.
Qed.

Lemma groups_comma_grouped (ds : list ascii) :
  ds <> [] ->
  comma_grouped ds (join "," (map string_of_list_ascii (groups ds))).
Proof.
  intros Hne. unfold groups.
  destruct (groups_from_right_spec (rev ds) []) as (Hcat & Hall & Hlast).
  - simpl. lia.
  - left. intros Hrev. apply Hne.
    rewrite <- (rev_involutive ds), Hrev. reflexivity.
  - destruct (groups_from_right_cons (rev ds) []) as (g & gs & Hgs).
    rewrite Hgs in *.
    destruct (exists_last (l := g :: gs) ltac:(discriminate)) as (front & lastg & Hsplit).
    rewrite Hsplit in *.
    rewrite removelast_last in Hall. rewrite last_last in Hlast.
    rewrite rev_app_distr in Hcat |- *. simpl in Hcat |- *.
    exists lastg, (rev front). repeat split.
    + rewrite rev_involutive, app_nil_r in Hcat. exact Hcat.
    + apply Hlast.
    + apply Hlast.
    + apply Forall_rev. exact Hall.
Qed.

(** C6, amended. [repr] of a [pp_int] built with a custom text that is not
    empty is that text; built without one, or with the empty text, it is the
    integer with comma thousands separators (an optional minus sign, then the
    decimal digits of the magnitude in groups of three counted from the
    right). The operators it inherits from [int] work on the integer it was
    built from. *)
Theorem pp_int_repr_and_value (v : Z) :
  (forall (c : ascii) (s : string),
      __repr__ (__new__ v (Some (String c s))) = String c s) /\
  __repr__ (__new__ v None) = format_comma v /\
  __repr__ (__new__ v (Some EmptyString)) = format_comma v /\
  (exists body : string,
      format_comma v = (if v <? 0 then String "-" body else body) /\
      comma_grouped (digits (Z.abs v)) body /\
      forallb is_digit (digits (Z.abs v)) = true /\
      digits_val (digits (Z.abs v)) = Z.abs v) /\
  __repr__ (__new__ 100000 None) = "100,000" /\
  __repr__ (__new__ 5 (Some "five")) = "five" /\
  (forall (w : Z) (c d : option string),
      __add__ (__new__ v c) (__new__ w d) = v + w /\
      __sub__ (__new__ v c) (__new__ w d) = v - w /\
      __mul__ (__new__ v c) (__new__ w d) = v * w /\
      __neg__ (__new__ v c) = - v /\
      __eq__ (__new__ v c) (__new__ w d) = (v =? w) /\
      __lt__ (__new__ v c) (__new__ w d) = (v <? w) /\
      __le__ (__new__ v c) (__new__ w d) = (v <=? w)).
Proof.
  split; [reflexivity|]. split; [reflexivity|]. split; [reflexivity|].
  split.
  - exists (join "," (map string_of_list_ascii (groups (digits (Z.abs v))))).
    split; [reflexivity|]. split.
    + apply groups_comma_grouped, digits_nonempty.
    + split.
      * apply digits_all_digits, Z.abs_nonneg.
      * apply digits_value, Z.abs_nonneg.
  - split; [vm_compute; reflexivity|]. split; [reflexivity|].
    intros w c d. repeat split.
Qed.

(** C6 as stated fails for the empty custom text: [repr(pp_int(5, ""))] is
    not that text but ["5"]. *)
Lemma empty_custom_text_is_ignored :
  __repr__ (__new__ 5 (Some EmptyString)) = "5" /\
  __repr__ (__new__ 5 (Some EmptyString)) <> EmptyString.
Proof.
  split; [vm_compute; reflexivity|]. vm_compute. discriminate.
Qed.

End PpIntProperties.

(** * The duplicate-key guard *)

Section GuardProperties.
Import DuplicateKeys.

Variable V : Type.

Local Abbreviation step :=
  (fun (d : list (string * V)) (kv : string * V) => dict_setitem V d (fst kv) (snd kv)).



















End GuardProperties.


(** * Properties of the deprecated-field pass *)

Lemma bind_returns {A B : Type} (a : A) (k : A -> Run B) :
  bind ([], Returns a) k = k a.
Proof.
  unfold bind. destruct (k a) as [l r]. reflexivity.
Qed.

Lemma bind_raises {A B : Type} (l : list LogRecord) (e : PyExc) (k : A -> Run B) :
  bind (l, Raises e) k = (l, Raises e).
Proof. reflexivity. Qed.

Lemma bind_logger {B : Type} (level : LogLevel) (msg : string) (k : unit -> Run B) :
  bind (logger level msg) k = ((level, msg) :: fst (k tt), snd (k tt)).
Proof.
  unfold bind, logger. destruct (k tt) as [l r]. reflexivity.
Qed.

Section ConfigProperties.
Import Config.

Variable classes : string -> option ModelClass.

Lemma leading_removelast (l : list string) :
  (if (1 <? length l)%nat then removelast l else []) = removelast l.
Proof.
  destruct l as [|a [|b l]]; reflexivity.
Qed.

Lemma process_unfold self dep_field fields fi kw value param_value :
  fields_of classes self = Returns fields ->
  fields_get fields dep_field = Some fi ->
  json_schema_extra fi = Some kw ->
  getattr self dep_field = Returns value ->
  get_new_param_fn kw value = Returns param_value ->
  _process_deprecated_field classes self dep_field =
    if bool_decide (dep_field ∈ model_fields_set self) then
      logger WARNING
        (warning_msg dep_field (get_new_param kw) (get_deprecated_msg kw)) ;;;
      if nonempty (get_new_param kw) && get_set_new_param kw
      then forward_steps classes self dep_field (get_new_param kw) param_value
      else ret self
    else ret self.
Proof.
  intros Hf Hg Hk Ha Hp.
  unfold _process_deprecated_field, forward_steps, lift.
  rewrite Hf, bind_returns, Hg, bind_returns, Hk, bind_returns.
  rewrite Ha, bind_returns, Hp, bind_returns.
  rewrite leading_removelast.
  reflexivity.
Qed.

Lemma process_fn_raises self dep_field fields fi kw value e :
  fields_of classes self = Returns fields ->
  fields_get fields dep_field = Some fi ->
  json_schema_extra fi = Some kw ->
  getattr self dep_field = Returns value ->
  get_new_param_fn kw value = Raises e ->
  _process_deprecated_field classes self dep_field = ([], Raises e).
Proof.
  intros Hf Hg Hk Ha Hp.
  unfold _process_deprecated_field, lift.
  rewrite Hf, bind_returns, Hg, bind_returns, Hk, bind_returns.
  rewrite Ha, bind_returns, Hp.
  apply bind_raises.
Qed.





Lemma forward_steps_returns self dep_field new_field param_value root sub sub' :
  delattr classes self dep_field = Returns root ->
  resolve root (removelast (split_on "." new_field)) = Returns sub ->
  List.last (split_on "." new_field) "" ∉ model_fields_set sub ->
  setattr classes sub (List.last (split_on "." new_field) "") param_value = Returns sub' ->
  forward_steps classes self dep_field new_field param_value =
    ([], Returns (put_path root (removelast (split_on "." new_field)) sub')).
Proof.
  intros Hdel Hres Hnot Hset.
  unfold forward_steps. rewrite Hdel.
  unfold try_log_raise at 1. unfold ret at 1. rewrite bind_returns.
  unfold lift. rewrite Hres, bind_returns.
  rewrite (bool_decide_eq_false_2 _ Hnot). simpl negb. unfold assert.
  unfold ret at 1. rewrite bind_returns.
  rewrite Hset. unfold try_log_raise, ret. rewrite bind_returns. reflexivity.
Qed.

Lemma forward_steps_conflict self dep_field new_field param_value root sub :
  delattr classes self dep_field = Returns root ->
  resolve root (removelast (split_on "." new_field)) = Returns sub ->
  List.last (split_on "." new_field) "" ∈ model_fields_set sub ->
  forward_steps classes self dep_field new_field param_value =
    ([], Raises (AssertionError (conflict_msg dep_field new_field))).
Proof.
  intros Hdel Hres Hin.
  unfold forward_steps. rewrite Hdel.
  unfold try_log_raise at 1. unfold ret at 1. rewrite bind_returns.
  unfold lift. rewrite Hres, bind_returns.
  rewrite (bool_decide_eq_true_2 _ Hin). reflexivity.
Qed.

Lemma forward_steps_removal_raises self dep_field new_field param_value e :
  delattr classes self dep_field = Raises e ->
  forward_steps classes self dep_field new_field param_value =
    ([(ERROR, removing_msg dep_field)], Raises e).
Proof.
  intros Hdel. unfold forward_steps. rewrite Hdel. reflexivity.
Qed.

Lemma forward_steps_resolve_raises self dep_field new_field param_value root e :
  delattr classes self dep_field = Returns root ->
  resolve root (removelast (split_on "." new_field)) = Raises e ->
  forward_steps classes self dep_field new_field param_value = ([], Raises e).
Proof.
  intros Hdel Hres. unfold forward_steps. rewrite Hdel.
  unfold try_log_raise at 1. unfold ret at 1. rewrite bind_returns.
  unfold lift. rewrite Hres. reflexivity.
Qed.

Lemma forward_steps_assignment_raises self dep_field new_field param_value root sub e :
  delattr classes self dep_field = Returns root ->
  resolve root (removelast (split_on "." new_field)) = Returns sub ->
  List.last (split_on "." new_field) "" ∉ model_fields_set sub ->
  setattr classes sub (List.last (split_on "." new_field) "") param_value = Raises e ->
  forward_steps classes self dep_field new_field param_value =
    ([(ERROR, setting_msg new_field dep_field)], Raises e).
Proof.
  intros Hdel Hres Hnot Hset.
  unfold forward_steps. rewrite Hdel.
  unfold try_log_raise at 1. unfold ret at 1. rewrite bind_returns.
  unfold lift. rewrite Hres, bind_returns.
  rewrite (bool_decide_eq_false_2 _ Hnot). simpl negb. unfold assert.
  unfold ret at 1. rewrite bind_returns.
  rewrite Hset. reflexivity.
Qed.

Lemma check_fields_none (fields : list (string * FieldInfo)) (self : Model) :
  no_deprecated fields -> check_fields classes fields self = ret self.
Proof.
  induction fields as [|[n f] fields IH]; intros Hno; [reflexivity|].
  cbn [check_fields]. rewrite (Hno n f) by (left; reflexivity).
  apply IH. intros n0 f0 Hin. apply (Hno n0 f0). right. exact Hin.
Qed.










Lemma validate_fields_lookup (cname : string) (data : gmap string PyVal)
    (fields : list (string * FieldInfo)) :
  forall (attrs : gmap string PyVal) (k : string) (fi : FieldInfo),
    validate_fields cname fields data = Returns attrs ->
    fields_get fields k = Some fi ->
    attrs !! k = match data !! k with
                 | Some v => Some v
                 | None => default fi
                 end.
Proof.
  induction fields as [|[n f] rest IH]; intros attrs k fi Hv Hg.
  - discriminate.
  - simpl in Hv, Hg.
    destruct (validate_fields cname rest data) as [attrs0|e] eqn:Hrest;
      simpl in Hv; [|discriminate].
    destruct (String.eqb n k) eqn:Hnk.
    + apply String.eqb_eq in Hnk. subst n. injection Hg as ->.
      destruct (data !! k) as [v|].
      * destruct (accepts fi v); [|discriminate].
        injection Hv as <-. apply lookup_insert_eq.
      * destruct (default fi) as [d|]; [|discriminate].
        destruct (accepts fi d); [|discriminate].
        injection Hv as <-. apply lookup_insert_eq.
    + apply String.eqb_neq in Hnk.
      assert (Hstep : exists w, attrs = <[n := w]> attrs0).
      { destruct (data !! n) as [v|].
        - destruct (accepts f v); [|discriminate]. injection Hv as <-. eauto.
        - destruct (default f) as [d|]; [|discriminate].
          destruct (accepts f d); [|discriminate]. injection Hv as <-. eauto. }
      destruct Hstep as [w ->].
      rewrite lookup_insert_ne by exact Hnk.
      apply (IH attrs0 k fi eq_refl Hg).
Qed.

Lemma BaseModel_init_returns (cname : string) (data : gmap string PyVal) (self : Model) :
  BaseModel_init classes cname data = Returns self ->
  exists c attrs,
    classes cname = Some c /\
    validate_fields cname (model_fields c) data = Returns attrs /\
    self = mkModel cname attrs (dom data).
Proof.
  unfold BaseModel_init. intros H.
  destruct (classes cname) as [c|]; [|discriminate].
  destruct (forallb _ _); [|discriminate].
  destruct (validate_fields cname (model_fields c) data) as [attrs|e] eqn:Hv;
    simpl in H; [|discriminate].
  injection H as <-. eauto.
Qed.

Lemma process_not_supplied (self : Model) (dep_field : string) :
  dep_field ∉ model_fields_set self ->
  _process_deprecated_field classes self dep_field = ([], Returns self) \/
  exists e, _process_deprecated_field classes self dep_field = ([], Raises e).
Proof.
  intros Hnot. unfold _process_deprecated_field, lift.
  destruct (fields_of classes self) as [fields|e]; [|right; eauto].
  rewrite bind_returns.
  destruct (fields_get fields dep_field) as [fi|]; [|right; eauto].
  rewrite bind_returns.
  destruct (json_schema_extra fi) as [kw|]; [|right; eauto].
  rewrite bind_returns.
  destruct (getattr self dep_field) as [value|e]; [|right; eauto].
  rewrite bind_returns.
  destruct (get_new_param_fn kw value) as [param_value|e]; [|right; eauto].
  rewrite bind_returns.
  rewrite (bool_decide_eq_false_2 _ Hnot). left. reflexivity.
Qed.

Lemma check_fields_unsupplied_prefix (self : Model) (rest : list (string * FieldInfo))
    (pre : list (string * FieldInfo)) :
  (forall n f, In (n, f) pre -> is_deprecated f = true -> n ∉ model_fields_set self) ->
  check_fields classes (pre ++ rest) self = check_fields classes rest self \/
  exists e, check_fields classes (pre ++ rest) self = ([], Raises e).
Proof.
  induction pre as [|[n f] pre IH]; intros Hpre.
  - left. reflexivity.
  - simpl.
    assert (Hpre' : forall n0 f0, In (n0, f0) pre -> is_deprecated f0 = true ->
                                  n0 ∉ model_fields_set self).
    { intros n0 f0 Hin. apply Hpre. right. exact Hin. }
    destruct (is_deprecated f) eqn:Hdep.
    + destruct (process_not_supplied self n) as [Hok|[e He]].
      * apply (Hpre n f); [left; reflexivity|exact Hdep].
      * rewrite Hok, bind_returns. apply IH. exact Hpre'.
      * right. exists e. rewrite He. reflexivity.
    + apply IH. exact Hpre'.
Qed.


(** C8. [get_config_default] raises an assertion error for a name that is no
    declared field and for a required field, and returns the declared default
    of every other field. *)
Theorem get_config_default_cases
    (config : string) (c : ModelClass) (field_name : string) :
  classes config = Some c ->
  match fields_get (model_fields c) field_name with
  | None =>
      get_config_default classes config field_name =
        ([], Raises (AssertionError
               ("'" +:+ field_name +:+ "' is not a field in <class '" +:+ config +:+ "'>")))
  | Some fi =>
      match default fi with
      | None =>
          get_config_default classes config field_name =
            ([], Raises (AssertionError
                   ("'" +:+ field_name +:+
                    "' is a required field and does not have a default value")))
      | Some d => get_config_default classes config field_name = ([], Returns d)
      end
  end.
Proof.
  intros Hc. unfold get_config_default, lift. rewrite Hc, bind_returns.
  destruct (fields_get (model_fields c) field_name) as [fi|] eqn:Hg.
  - rewrite bool_decide_eq_true_2 by eauto.
    unfold assert at 1. unfold ret at 1. rewrite bind_returns.
    unfold is_required, get_default.
    destruct (default fi) as [d|]; reflexivity.
  - rewrite bool_decide_eq_false_2.
    + reflexivity.
    + intros [x Hx]. discriminate.
Qed.

Lemma split_on_cons (sep : ascii) (s : string) :
  exists h t, split_on sep s = h :: t.
Proof.
  induction s as [|c r IH]; simpl.
  - eauto.
  - destruct IH as (h & t & ->). destruct (Ascii.eqb c sep); eauto.
Qed.

Lemma path_shape (segs : list string) (h : string) (t : list string) :
  segs = h :: t ->
  (removelast segs = [] /\ List.last segs "" = h) \/
  (exists r, removelast segs = h :: r).
Proof.
  intros ->. destruct t as [|b t].
  - left. split; reflexivity.
  - right. exists (removelast (b :: t)). reflexivity.
Qed.

Lemma forward_steps_inv self dep_field new_field param_value log m' :
  forward_steps classes self dep_field new_field param_value = (log, Returns m') ->
  exists root sub sub',
    delattr classes self dep_field = Returns root /\
    resolve root (removelast (split_on "." new_field)) = Returns sub /\
    setattr classes sub (List.last (split_on "." new_field) "") param_value = Returns sub' /\
    m' = put_path root (removelast (split_on "." new_field)) sub'.
Proof.
  unfold forward_steps. intros H.
  destruct (delattr classes self dep_field) as [root|e] eqn:Hdel; [|discriminate].
  unfold try_log_raise at 1 in H. unfold ret at 1 in H. rewrite bind_returns in H.
  unfold lift in H.
  destruct (resolve root _) as [sub|e] eqn:Hres; [|discriminate].
  rewrite bind_returns in H.
  destruct (bool_decide _); simpl negb in H; unfold assert in H; [discriminate|].
  unfold ret at 1 in H. rewrite bind_returns in H.
  destruct (setattr classes sub _ param_value) as [sub'|e] eqn:Hset; [|discriminate].
  unfold try_log_raise, ret in H. rewrite bind_returns in H.
  injection H as _ <-. eauto 10.
Qed.

Lemma setattr_inv (m m' : Model) (name : string) (v : PyVal) :
  setattr classes m name v = Returns m' ->
  m' = mkModel (m_cls m) (<[name := v]> (m_attrs m)) ({[name]} ∪ model_fields_set m).
Proof.
  unfold setattr. destruct (fields_of classes m) as [fields|]; simpl; [|discriminate].
  destruct (fields_get fields name) as [fi|]; [|discriminate].
  destruct (accepts fi v); [|discriminate]. congruence.
Qed.

Lemma delattr_inv (m root : Model) (name : string) :
  delattr classes m name = Returns root ->
  exists d, root = mkModel (m_cls m) (<[name := d]> (m_attrs m)) (model_fields_set m).
Proof.
  unfold delattr. destruct (fields_of classes m) as [fields|]; simpl; [|discriminate].
  destruct (fields_get fields name) as [fi|]; [|discriminate].
  destruct (default fi) as [d|]; [|discriminate]. intros [= <-]. eauto.
Qed.

Lemma process_keeps_default (cname k : string) (d : PyVal) (c : ModelClass)
    (self m' : Model) (dep_field : string) (log : list LogRecord) :
  classes cname = Some c ->
  not_a_replacement (model_fields c) k ->
  still_default cname k d self ->
  _process_deprecated_field classes self dep_field = (log, Returns m') ->
  still_default cname k d m'.
Proof.
  intros Hc Hnr (Hcls & Hval & Hnot) Hrun.
  assert (Hf : fields_of classes self = Returns (model_fields c)).
  { unfold fields_of. rewrite Hcls, Hc. reflexivity. }
  unfold _process_deprecated_field, lift in Hrun.
  rewrite Hf, bind_returns in Hrun.
  destruct (fields_get (model_fields c) dep_field) as [fi|] eqn:Hg; [|discriminate].
  rewrite bind_returns in Hrun.
  destruct (json_schema_extra fi) as [kw|] eqn:Hk; [|discriminate].
  rewrite bind_returns in Hrun.
  destruct (getattr self dep_field) as [value|] eqn:Ha; [|discriminate].
  rewrite bind_returns in Hrun.
  destruct (get_new_param_fn kw value) as [param_value|] eqn:Hp; [|discriminate].
  rewrite bind_returns in Hrun.
  destruct (bool_decide (dep_field ∈ model_fields_set self)) eqn:Hin.
  2:{ injection Hrun as _ <-. repeat split; assumption. }
  apply bool_decide_eq_true_1 in Hin.
  rewrite bind_logger in Hrun.
  destruct (nonempty (get_new_param kw) && get_set_new_param kw).
  2:{ injection Hrun as _ <-. repeat split; assumption. }
  rewrite leading_removelast in Hrun.
  change (((WARNING, warning_msg dep_field (get_new_param kw) (get_deprecated_msg kw))
           :: fst (forward_steps classes self dep_field (get_new_param kw) param_value),
           snd (forward_steps classes self dep_field (get_new_param kw) param_value))
          = (log, Returns m')) in Hrun.
  destruct (forward_steps classes self dep_field (get_new_param kw) param_value)
    as [log' r] eqn:Hfw.
  simpl in Hrun. injection Hrun as _ ->.
  destruct (forward_steps_inv _ _ _ _ _ _ Hfw) as (root & sub & sub' & Hdel & Hres & Hset & ->).
  destruct (delattr_inv _ _ _ Hdel) as [d' ->].
  assert (Hdk : dep_field <> k) by (intros ->; contradiction).
  pose proof (Hnr dep_field fi kw Hg Hk) as Hhd.
  destruct (split_on_cons "." (get_new_param kw)) as (h & t & Hsegs).
  rewrite Hsegs in Hhd. simpl in Hhd.
  destruct (path_shape _ _ _ Hsegs) as [[Hlead Hlast]|[r Hlead]].
  - rewrite Hlead in Hres |- *. simpl in Hres. injection Hres as <-.
    rewrite Hlast in Hset. apply setattr_inv in Hset. subst sub'. simpl.
    repeat split; simpl.
    + exact Hcls.
    + rewrite lookup_insert_ne by exact Hhd.
      rewrite lookup_insert_ne by exact Hdk. exact Hval.
    + intros [Heq%elem_of_singleton|Hin']%elem_of_union.
      * apply Hhd. symmetry. exact Heq.
      * contradiction.
  - rewrite Hlead. simpl.
    destruct ((<[dep_field := d']> (m_attrs self)) !! h) as [[| | | | |child]|];
      repeat split; simpl; try assumption;
      try (rewrite lookup_insert_ne by exact Hdk; exact Hval).
    rewrite lookup_insert_ne by exact Hhd.
    rewrite lookup_insert_ne by exact Hdk. exact Hval.
Qed.

Lemma check_fields_keeps_default (cname k : string) (d : PyVal) (c : ModelClass)
    (todo : list (string * FieldInfo)) :
  classes cname = Some c ->
  not_a_replacement (model_fields c) k ->
  forall (self m' : Model) (log : list LogRecord),
    still_default cname k d self ->
    check_fields classes todo self = (log, Returns m') ->
    still_default cname k d m'.
Proof.
  intros Hc Hnr. induction todo as [|[n f] todo IH]; intros self m' log Hst Hrun.
  - injection Hrun as _ <-. exact Hst.
  - simpl in Hrun. destruct (is_deprecated f).
    + destruct (_process_deprecated_field classes self n) as [l1 [m1|e]] eqn:Hp;
        [|discriminate].
      unfold bind in Hrun.
      destruct (check_fields classes todo m1) as [l2 r2] eqn:Hrest.
      injection Hrun as _ ->.
      eapply IH; [|exact Hrest].
      eapply process_keeps_default; eassumption.
    + eapply IH; eassumption.
Qed.

Lemma is_auto_spec (v : PyVal) : is_auto v = true <-> v = VStr "auto".
Proof.
  destruct v; simpl; try (split; [discriminate|congruence]).
  rewrite String.eqb_eq. split; congruence.
Qed.

Lemma keep_spec (k : string) (v : PyVal) :
  Is_true (keep (k, v)) <-> (v <> VStr "auto" \/ k = "replace_method").
Proof.
  unfold keep. simpl.
  destruct (is_auto v) eqn:Hauto; simpl.
  - apply is_auto_spec in Hauto.
    rewrite Is_true_true, String.eqb_eq. split; [auto|].
    intros [Hv|Hk]; [contradiction|exact Hk].
  - split; [|intros _; exact I].
    intros _. left. intros Hv. apply is_auto_spec in Hv. congruence.
Qed.

Lemma init_data_lookup (data : gmap string PyVal) (k : string) (v : PyVal) :
  init_data false data !! k = Some v <->
  data !! k = Some v /\ (v <> VStr "auto" \/ k = "replace_method").
Proof.
  unfold init_data. simpl. rewrite map_lookup_filter_Some, keep_spec. reflexivity.
Qed.

Lemma init_data_dropped (data : gmap string PyVal) (k : string) :
  data !! k = Some (VStr "auto") ->
  k <> "replace_method" ->
  init_data false data !! k = None.
Proof.
  intros Hk Hne.
  destruct (init_data false data !! k) as [v|] eqn:Hv; [|reflexivity].
  apply init_data_lookup in Hv. destruct Hv as [Hv [Hauto|Hrm]].
  - rewrite Hk in Hv. congruence.
  - contradiction.
Qed.

(** C3, amended. With [strict] false, exactly the entries whose value is the
    text ["auto"] and whose key is not ["replace_method"] are dropped from the
    mapping handed to validation (an ["auto"] under ["replace_method"] is
    kept); with [strict] true the mapping is handed over as it is. A dropped
    field is at its declared default and is not marked as set in the
    constructed model, provided no field of the class names it as its
    [new_param]. *)
Theorem auto_entries_are_dropped (data : gmap string PyVal) :
  (forall k v,
      init_data false data !! k = Some v <->
      data !! k = Some v /\ (v <> VStr "auto" \/ k = "replace_method")) /\
  init_data true data = data /\
  (forall (cname : string) (c : ModelClass) (k : string) (fi : FieldInfo) (d : PyVal)
          (log : list LogRecord) (m : Model),
      classes cname = Some c ->
      data !! k = Some (VStr "auto") ->
      k <> "replace_method" ->
      fields_get (model_fields c) k = Some fi ->
      default fi = Some d ->
      not_a_replacement (model_fields c) k ->
      __init__ classes cname false data = (log, Returns m) ->
      getattr m k = Returns d /\ k ∉ model_fields_set m).
Proof.
  split; [exact (init_data_lookup data)|]. split; [reflexivity|].
  intros cname c k fi d log m Hc Hk Hne Hg Hd Hnr Hrun.
  pose proof (init_data_dropped data k Hk Hne) as Hdrop.
  unfold __init__, lift in Hrun.
  destruct (BaseModel_init classes cname (init_data false data)) as [self|e] eqn:Hinit;
    [|discriminate].
  rewrite bind_returns in Hrun.
  destruct (BaseModel_init_returns _ _ _ Hinit) as (c' & attrs & Hc' & Hv & ->).
  rewrite Hc in Hc'. injection Hc' as <-.
  assert (Hst : still_default cname k d (mkModel cname attrs (dom (init_data false data)))).
  { repeat split; simpl.
    - rewrite (validate_fields_lookup _ _ _ _ _ _ Hv Hg), Hdrop. exact Hd.
    - apply not_elem_of_dom. exact Hdrop. }
  assert (Hfo : fields_of classes (mkModel cname attrs (dom (init_data false data)))
                = Returns (model_fields c)).
  { unfold fields_of. simpl. rewrite Hc. reflexivity. }
  unfold _deprecated_fields_check, lift in Hrun.
  rewrite Hfo, bind_returns in Hrun.
  destruct (check_fields_keeps_default cname k d c (model_fields c) Hc Hnr _ _ _ Hst Hrun)
    as (_ & Hval & Hnot).
  split; [|exact Hnot]. unfold getattr. rewrite Hval. reflexivity.
Qed.

End ConfigProperties.

(** * The pass on the example classes *)

Section ConfigExamples.
Import Config Examples.

Example validated_models :
  BaseModel_init classes "Outer" (<["old" := VInt 9]> ∅) = Returns outer_old /\
  BaseModel_init classes "Outer" (<["old" := VInt 9]> (<["sub" := VObj sub_x3]> ∅))
    = Returns outer_both /\
  BaseModel_init classes "Legacy" (<["old" := VInt 3]> ∅) = Returns legacy_old /\
  BaseModel_init classes "Typed" (<["size_old" := VStr "5"]> ∅) = Returns typed_old /\
  BaseModel_init classes "Fragile" ∅ = Returns fragile_empty.
Proof.
  repeat split; vm_compute; reflexivity.
Qed.

Lemma no_deprecated_nil : no_deprecated [].
Proof. intros n f []. Qed.

Lemma no_deprecated_plain (name : string) (fi : FieldInfo)
    (rest : list (string * FieldInfo)) :
  json_schema_extra fi = None -> no_deprecated rest -> no_deprecated ((name, fi) :: rest).
Proof.
  intros Hplain Hrest n f [Heq|Hin].
  - injection Heq as _ <-. unfold is_deprecated. rewrite Hplain. reflexivity.
  - apply (Hrest n f Hin).
Qed.






Lemma get_config_default_cases_witness :
  get_config_default classes "Legacy" "limit" = ([], Returns (VInt 7)) /\
  get_config_default classes "Legacy" "old" =
    ([], Raises (AssertionError
           "'old' is a required field and does not have a default value")) /\
  get_config_default classes "Legacy" "nope" =
    ([], Raises (AssertionError "'nope' is not a field in <class 'Legacy'>")).
Proof.
  split; [|split].
  - exact (get_config_default_cases classes "Legacy" Legacy "limit" eq_refl).
  - exact (get_config_default_cases classes "Legacy" Legacy "old" eq_refl).
  - exact (get_config_default_cases classes "Legacy" Legacy "nope" eq_refl).
Defined.

(** C3 as stated fails on [MyExampleConfig(my_old_field="5",
    my_new_field="auto")]: the ["auto"] entry is dropped, yet the constructed
    model holds 5, not the declared default 0, in [my_new_field], and marks
    the field as set, because the deprecated [my_old_field] is forwarded
    into it. *)
Lemma dropped_field_is_overwritten :
  let data := <["my_old_field" := VStr "5"]> (<["my_new_field" := VStr "auto"]> ∅) in
  data !! "my_new_field" = Some (VStr "auto") /\
  fields_get (model_fields MyExampleConfig) "my_new_field"
    = Some (mkField (Some (VInt 0)) is_int None) /\
  exists log m,
    __init__ classes "MyExampleConfig" false data = (log, Returns m) /\
    getattr m "my_new_field" = Returns (VInt 5) /\
    "my_new_field" ∈ model_fields_set m.
Proof.
  split; [vm_compute; reflexivity|]. split; [reflexivity|].
  eexists _, _. split; [vm_compute; reflexivity|].
  split; [vm_compute; reflexivity|].
  apply (bool_decide_unpack _). vm_compute. exact I.
Qed.

Lemma auto_entries_are_dropped_witness :
  let data := <["old" := VStr "auto"]> ∅ in
  init_data false data !! "old" = None /\
  init_data true data !! "old" = Some (VStr "auto") /\
  exists m,
    __init__ classes "Outer" false data = ([], Returns m) /\
    getattr m "old" = Returns (VInt 0) /\ "old" ∉ model_fields_set m.
Proof.
  intros data.
  destruct (auto_entries_are_dropped classes data) as (Hdrop & Hstrict & Hfinal).
  split; [|split].
  - destruct (init_data false data !! "old") as [v|] eqn:Hv; [|reflexivity].
    apply Hdrop in Hv. destruct Hv as [Hv [Hne|Hrm]].
    + vm_compute in Hv. congruence.
    + discriminate Hrm.
  - rewrite Hstrict. vm_compute. reflexivity.
  - eexists. split; [vm_compute; reflexivity|].
    eapply (Hfinal "Outer" Outer "old" _ (VInt 0)).
    + reflexivity.
    + vm_compute. reflexivity.
    + discriminate.
    + reflexivity.
    + reflexivity.
    + intros n f kw Hg Hk. cbn [model_fields Outer fields_get] in Hg.
      destruct (String.eqb "sub" n).
      * injection Hg as <-. discriminate Hk.
      * destruct (String.eqb "old" n); [|discriminate].
        injection Hg as <-. injection Hk as <-. vm_compute. discriminate.
    + vm_compute. reflexivity.
Defined.

(** Construction of the class of the docstring. *)
Example docstring_class_forwards :
  exists m,
    __init__ classes "MyExampleConfig" false (<["my_old_field" := VStr "5"]> ∅) =
      ([(WARNING, "Config parameter my_old_field is deprecated use my_new_field instead")],
       Returns m) /\
    getattr m "my_new_field" = Returns (VInt 5) /\
    getattr m "my_old_field" = Returns (VStr "0").
Proof.
  eexists. repeat split; vm_compute; reflexivity.
Qed.

Example docstring_class_conflict :
  __init__ classes "MyExampleConfig" false
    (<["my_old_field" := VStr "5"]> (<["my_new_field" := VInt 7]> ∅)) =
    ([(WARNING, "Config parameter my_old_field is deprecated use my_new_field instead")],
     Raises (AssertionError
       "Cannot provide deprecated parameter 'my_old_field' and replacing parameter 'my_new_field' together")).
Proof.
  vm_compute. reflexivity.
Qed.

End ConfigExamples.

(** * Number formats *)

Section FormatProperties.
Import Fmt.

Lemma ilog10_fuel_spec (fuel : nat) : forall n : Z,
  1 <= n < 10 ^ Z.of_nat fuel ->
  0 <= ilog10_fuel fuel n /\
  10 ^ ilog10_fuel fuel n <= n < 10 ^ (ilog10_fuel fuel n + 1).
Proof.
  induction fuel as [|f IH]; intros n Hn.
  - simpl in Hn. lia.
  - simpl. destruct (n <? 10) eqn:Hlt.
    + apply Z.ltb_lt in Hlt. simpl. lia.
    + apply Z.ltb_ge in Hlt.
      rewrite Nat2Z.inj_succ, Z.pow_succ_r in Hn by lia.
      destruct (IH (n / 10)) as (Hx & Hlo & Hhi).
      * split; [apply Z.div_le_lower_bound; lia|apply Z.div_lt_upper_bound; lia].
      * set (x := ilog10_fuel f (n / 10)) in *.
        pose proof (Z.div_mod n 10 ltac:(lia)) as Hdm.
        pose proof (Z.mod_pos_bound n 10 ltac:(lia)) as Hm.
        split; [lia|].
        replace (1 + x) with (Z.succ x) by lia.
        replace (Z.succ x + 1) with (Z.succ (x + 1)) by lia.
        rewrite !Z.pow_succ_r by lia. lia.
Qed.

Lemma ilog10_spec (n : Z) :
  1 <= n -> 0 <= ilog10 n /\ 10 ^ ilog10 n <= n < 10 ^ (ilog10 n + 1).
Proof.
  intros Hn. apply ilog10_fuel_spec. split; [exact Hn|]. apply enough_fuel. lia.
Qed.

Lemma round_half_even_bounds (n d : Z) :
  n / d <= round_half_even n d <= n / d + 1.
Proof.
  unfold round_half_even. destruct (_ || _); lia.
Qed.

Lemma fixed_digits_length (w : nat) (n : Z) : length (fixed_digits w n) = w.
Proof.
  induction w as [|k IH]; cbn [fixed_digits length]; [reflexivity|].
  rewrite IH. reflexivity.
Qed.

Lemma fixed_digits_all_digits (w : nat) (n : Z) :
  forallb is_digit (fixed_digits w n) = true.
Proof.
  induction w as [|k IH]; cbn [fixed_digits forallb]; [reflexivity|].
  rewrite IH, is_digit_digit_char; [reflexivity|].
  pose proof (Z.mod_pos_bound (n / 10 ^ Z.of_nat k) 10). lia.
Qed.

Lemma exponent_text_shape (x : Z) :
  0 <= x ->
  exists ex : list ascii,
    exponent_text x = String "e" (String "+" (string_of_list_ascii ex)) /\
    (2 <= length ex)%nat /\ forallb is_digit ex = true.
Proof.
  intros Hx. unfold exponent_text.
  rewrite Z.abs_eq by exact Hx.
  assert (Hsign : (x <? 0) = false) by (apply Z.ltb_ge; exact Hx).
  rewrite Hsign.
  destruct (x <? 10) eqn:Hlt.
  - exists ("0"%char :: digits x). split; [reflexivity|]. split.
    + pose proof (digits_nonempty x).
      destruct (digits x); [congruence|cbn [length]; lia].
    + cbn [forallb]. change (is_digit "0") with true.
      apply digits_all_digits. exact Hx.
  - apply Z.ltb_ge in Hlt. exists (digits x). split; [reflexivity|]. split.
    + apply digits_two. exact Hlt.
    + apply digits_all_digits. exact Hx.
Qed.

(** The seven significant digits lie between [10 ^ 6] and [10 ^ 7]. *)
Lemma scaled_quotient_bounds (n d x : Z) :
  0 < d -> 0 <= x ->
  10 ^ x * d <= n < 10 ^ (x + 1) * d ->
  let '(sn, sd) := scaled n d (x - 6) in
  0 < sd /\ 10 ^ 6 <= sn / sd < 10 ^ 7.
Proof.
  intros Hd Hx [Hlo Hhi]. unfold scaled.
  destruct (0 <=? x - 6) eqn:Hcase.
  - apply Z.leb_le in Hcase.
    assert (Hp : 0 < 10 ^ (x - 6)) by (apply Z.pow_pos_nonneg; lia).
    assert (Hx6 : 10 ^ x = 10 ^ 6 * 10 ^ (x - 6)).
    { rewrite <- Z.pow_add_r by lia. f_equal. lia. }
    assert (Hx7 : 10 ^ (x + 1) = 10 ^ 7 * 10 ^ (x - 6)).
    { rewrite <- Z.pow_add_r by lia. f_equal. lia. }
    split; [nia|]. split.
    + apply Z.div_le_lower_bound; nia.
    + apply Z.div_lt_upper_bound; nia.
  - apply Z.leb_gt in Hcase.
    replace (- (x - 6)) with (6 - x) by lia.
    assert (Hp : 0 < 10 ^ (6 - x)) by (apply Z.pow_pos_nonneg; lia).
    assert (Hpx : 0 < 10 ^ x) by (apply Z.pow_pos_nonneg; lia).
    assert (H6 : 10 ^ x * 10 ^ (6 - x) = 10 ^ 6).
    { rewrite <- Z.pow_add_r by lia. f_equal. lia. }
    assert (H7 : 10 ^ (x + 1) * 10 ^ (6 - x) = 10 ^ 7).
    { rewrite <- Z.pow_add_r by lia. f_equal. lia. }
    split; [exact Hd|]. split.
    + apply Z.div_le_lower_bound; [exact Hd|]. nia.
    + apply Z.div_lt_upper_bound; [exact Hd|]. nia.
Qed.

Lemma format_e_pos_shape (n d : Z) :
  0 < d -> d <= n -> Encoder.exp_notation (format_e_pos n d).
Proof.
  intros Hd Hn.
  unfold format_e_pos, decimal_exponent.
  assert (Hle : (d <=? n) = true) by (apply Z.leb_le; exact Hn).
  rewrite Hle.
  assert (Hq : 1 <= n / d) by (apply Z.div_le_lower_bound; lia).
  destruct (ilog10_spec (n / d) Hq) as (Hx & Hlo & Hhi).
  set (x := ilog10 (n / d)) in *.
  assert (Hrange : 10 ^ x * d <= n < 10 ^ (x + 1) * d).
  { pose proof (Z.div_mod n d ltac:(lia)) as Hdm.
    pose proof (Z.mod_pos_bound n d Hd) as Hm. nia. }
  pose proof (scaled_quotient_bounds n d x Hd Hx Hrange) as Hs.
  destruct (scaled n d (x - 6)) as [sn sd]. destruct Hs as (Hsd & Hq6 & Hq7).
  pose proof (round_half_even_bounds sn sd) as Hr.
  set (q := round_half_even sn sd) in *.
  assert (Hfinal : exists q' x', (if q =? 10 ^ 7 then (10 ^ 6, x + 1) else (q, x)) = (q', x')
                                 /\ 10 ^ 6 <= q' < 10 ^ 7 /\ 0 <= x').
  { destruct (q =? 10 ^ 7) eqn:Hc.
    - exists (10 ^ 6), (x + 1). repeat split; lia.
    - apply Z.eqb_neq in Hc. exists q, x. repeat split; lia. }
  destruct Hfinal as (q' & x' & -> & Hq' & Hx').
  destruct (exponent_text_shape x' Hx') as (ex & Hex & Hlen & Hdig).
  exists (digit_char (q' / 10 ^ 6)), (fixed_digits 6 q'), ex.
  assert (Hlead : 1 <= q' / 10 ^ 6 <= 9).
  { split; [apply Z.div_le_lower_bound; lia|].
    assert (q' / 10 ^ 6 < 10); [apply Z.div_lt_upper_bound; lia|lia]. }
  split; [rewrite Hex; reflexivity|].
  split; [apply is_digit_digit_char; lia|].
  split; [apply digit_char_nonzero; exact Hlead|].
  split; [apply fixed_digits_length|].
  split; [apply fixed_digits_all_digits|].
  split; assumption.
Qed.

Lemma float_of_int_positive (z v : Z) :
  0 < z -> float_of_int z = Returns v -> 1 <= v.
Proof.
  intros Hz. unfold float_of_int.
  set (nbits := Z.log2 z + 1).
  destruct (nbits <=? 53) eqn:Hsmall.
  - destruct (2 ^ 1024 <=? z); [discriminate|]. intros [= <-]. lia.
  - apply Z.leb_gt in Hsmall.
    set (sh := nbits - 53).
    destruct (2 ^ 1024 <=? _); [discriminate|]. intros [= <-].
    assert (Hsh : 0 < 2 ^ sh) by (apply Z.pow_pos_nonneg; lia).
    pose proof (round_half_even_bounds z (2 ^ sh)) as Hr.
    assert (Hq : 1 <= z / 2 ^ sh).
    { apply Z.div_le_lower_bound; [exact Hsh|].
      pose proof (Z.log2_spec z Hz) as [Hlog _].
      eapply Z.le_trans; [|exact Hlog].
      rewrite Z.mul_1_r. apply Z.pow_le_mono_r; unfold sh, nbits; lia. }
    nia.
Qed.


End FormatProperties.

(** * The encoder *)

Section EncoderProperties.
Import Fmt Encoder.

(** The line feed character. *)
Local Abbreviation newline := ("010"%char).

Lemma contains_char_app (c : ascii) (a b : string) :
  contains_char c (a +:+ b) = contains_char c a || contains_char c b.
Proof.
  induction a as [|x a IH]; simpl; [reflexivity|].
  rewrite IH, orb_assoc. reflexivity.
Qed.

Lemma contains_char_join (c : ascii) (sep : string) (parts : list string) :
  contains_char c sep = false ->
  forallb (fun text => negb (contains_char c text)) parts = true ->
  contains_char c (join sep parts) = false.
Proof.
  intros Hsep. induction parts as [|p rest IH]; intros Hall; [reflexivity|].
  simpl in Hall. apply andb_true_iff in Hall. destruct Hall as [Hp Hrest].
  apply negb_true_iff in Hp.
  destruct rest as [|p' rest]; [exact Hp|].
  change (join sep (p :: p' :: rest)) with (p +:+ sep +:+ join sep (p' :: rest)).
  rewrite !contains_char_app, Hp, Hsep, (IH Hrest). reflexivity.
Qed.

Lemma mapping_items (self_indent : option Z) (level : Z)
    (items : list (string * JVal)) (rendered : list string) :
  Forall2 (fun kv text => iterencode self_indent (snd kv) (level + 1) = Returns text)
          items rendered ->
  iterencode self_indent (JDict items) level =
    Returns (render_mapping (indent_width self_indent) level
               (combine (map fst items) rendered)).
Proof.
  intros Hall. cbn [iterencode]. fold (indent_width self_indent).
  match goal with
  | |- exc_bind (?each items) _ = _ =>
      assert (Heach : each items =
        Returns (map (fun kv => render_pair (indent_width self_indent) (level + 1)
                                            (fst kv) (snd kv))
                     (combine (map fst items) rendered)))
  end.
  { induction Hall as [|[k v] text items rendered Hv Hrest IH].
    - reflexivity.
    - simpl in Hv. rewrite Hv. cbn [exc_bind]. rewrite IH. reflexivity. }
  rewrite Heach. reflexivity.
Qed.

Lemma sequence_elements (self_indent : option Z) (level : Z)
    (elements : list JVal) (rendered : list string) :
  Forall2 (fun v text => iterencode self_indent v 0 = Returns text) elements rendered ->
  iterencode self_indent (JList elements) level = Returns (render_sequence rendered).
Proof.
  intros Hall. cbn [iterencode].
  match goal with
  | |- exc_bind (?each elements) _ = _ =>
      assert (Heach : each elements = Returns rendered)
  end.
  { induction Hall as [|v text elements rendered Hv Hrest IH].
    - reflexivity.
    - rewrite Hv. cbn [exc_bind]. rewrite IH. reflexivity. }
  rewrite Heach. reflexivity.
Qed.




(** The example of the spec: nested indentation for the keys of the mapping,
    one line for the list. *)
Example spec_example_layout :
  iterencode None (JDict [("a", JInt 1200); ("b", JList [JInt 1; JInt 2000])]) 0 =
    Returns ("{" +:+ String newline "    " +:+ String dquote "a" +:+ String dquote ": "
             +:+ "1.200000e+03, " +:+ String newline "    " +:+ String dquote "b"
             +:+ String dquote ": " +:+ "[1, 2.000000e+03]" +:+ String newline "}").
Proof.
  vm_compute. reflexivity.
Qed.

End EncoderProperties.

(** * The encoder and the pretty integer on the examples of the spec *)



Lemma pp_int_repr_and_value_witness :
  PpInt.__repr__ (PpInt.__new__ 100000 None) = "100,000" /\
  PpInt.__repr__ (PpInt.__new__ 5 (Some "five")) = "five" /\
  PpInt.__add__ (PpInt.__new__ 100000 None) (PpInt.__new__ 5 (Some "five")) = 100005.
Proof.
  destruct (pp_int_repr_and_value 100000) as (_ & _ & _ & _ & Hrepr & Hfive & Hops).
  split; [exact Hrepr|]. split; [exact Hfive|].
  exact (proj1 (Hops 5 None (Some "five"))).
Defined.

(** * More on the deprecated-field pass *)

Section ConfigExtras.
Import Config.

Variable classes : string -> option ModelClass.

(** A record written by [logger.warning]. *)
Local Abbreviation is_warning := (fun r : LogRecord => fst r = WARNING).

Lemma forward_steps_outcomes self dep_field new_field param_value :
  (exists m', forward_steps classes self dep_field new_field param_value = ([], Returns m')) \/
  (exists e, forward_steps classes self dep_field new_field param_value = ([], Raises e)) \/
  (exists msg e, forward_steps classes self dep_field new_field param_value =
                   ([(ERROR, msg)], Raises e)).
Proof.
  destruct (delattr classes self dep_field) as [root|e] eqn:Hdel.
  2:{ right. right. rewrite (forward_steps_removal_raises classes _ _ _ _ _ Hdel). eauto. }
  destruct (resolve root (removelast (split_on "." new_field))) as [sub|e] eqn:Hres.
  2:{ right. left. rewrite (forward_steps_resolve_raises classes _ _ _ _ _ _ Hdel Hres). eauto. }
  destruct (decide (List.last (split_on "." new_field) "" ∈ model_fields_set sub))
    as [Hin|Hnot].
  { right. left. rewrite (forward_steps_conflict classes _ _ _ _ _ _ Hdel Hres Hin). eauto. }
  destruct (setattr classes sub (List.last (split_on "." new_field) "") param_value)
    as [sub'|e] eqn:Hset.
  - left. rewrite (forward_steps_returns classes _ _ _ _ _ _ _ Hdel Hres Hnot Hset). eauto.
  - right. right.
    rewrite (forward_steps_assignment_raises classes _ _ _ _ _ _ _ Hdel Hres Hnot Hset). eauto.
Qed.

(** The outcomes of [_process_deprecated_field]: it fails before anything is
    logged; or the field was not supplied and nothing happens; or the field
    was supplied, a warning is written and either nothing else happens or the
    forwarding steps run. *)
Lemma process_outcomes self dep_field :
  (exists e, _process_deprecated_field classes self dep_field = ([], Raises e)) \/
  ((dep_field ∉ model_fields_set self) /\
   _process_deprecated_field classes self dep_field = ([], Returns self)) \/
  (exists fields fi kw value param_value,
     fields_of classes self = Returns fields /\
     fields_get fields dep_field = Some fi /\
     json_schema_extra fi = Some kw /\
     getattr self dep_field = Returns value /\
     get_new_param_fn kw value = Returns param_value /\
     dep_field ∈ model_fields_set self /\
     let warned := (WARNING, warning_msg dep_field (get_new_param kw) (get_deprecated_msg kw)) in
     (((nonempty (get_new_param kw) && get_set_new_param kw) = false /\
       _process_deprecated_field classes self dep_field = ([warned], Returns self)) \/
      ((nonempty (get_new_param kw) && get_set_new_param kw) = true /\
       _process_deprecated_field classes self dep_field =
         (warned :: fst (forward_steps classes self dep_field (get_new_param kw) param_value),
          snd (forward_steps classes self dep_field (get_new_param kw) param_value))))).
Proof.
  destruct (fields_of classes self) as [fields|e] eqn:Hf.
  2:{ left. exists e. unfold _process_deprecated_field, lift. rewrite Hf. reflexivity. }
  destruct (fields_get fields dep_field) as [fi|] eqn:Hg.
  2:{ left. eexists. unfold _process_deprecated_field, lift.
      rewrite Hf, bind_returns, Hg. reflexivity. }
  destruct (json_schema_extra fi) as [kw|] eqn:Hk.
  2:{ left. eexists. unfold _process_deprecated_field, lift.
      rewrite Hf, bind_returns, Hg, bind_returns, Hk. reflexivity. }
  destruct (getattr self dep_field) as [value|e] eqn:Ha.
  2:{ left. exists e. unfold _process_deprecated_field, lift.
      rewrite Hf, bind_returns, Hg, bind_returns, Hk, bind_returns, Ha. reflexivity. }
  destruct (get_new_param_fn kw value) as [param_value|e] eqn:Hp.
  2:{ left. exists e. exact (process_fn_raises classes _ _ _ _ _ _ _ Hf Hg Hk Ha Hp). }
  rewrite (process_unfold classes _ _ _ _ _ _ _ Hf Hg Hk Ha Hp).
  destruct (decide (dep_field ∈ model_fields_set self)) as [Hin|Hnot].
  - right. right. exists fields, fi, kw, value, param_value.
    repeat (split; [first [assumption | reflexivity]|]). cbv zeta.
    rewrite (bool_decide_eq_true_2 _ Hin), bind_logger.
    destruct (nonempty (get_new_param kw) && get_set_new_param kw).
    + right. split; reflexivity.
    + left. split; reflexivity.
  - right. left. split; [exact Hnot|].
    rewrite (bool_decide_eq_false_2 _ Hnot). reflexivity.
Qed.

(** X1. A deprecated field the caller did not supply is left alone: the pass
    writes no log record for it, and when it returns, the model is the one it
    was given. *)
Theorem unsupplied_field_is_left_alone (self : Model) (dep_field : string) :
  dep_field ∉ model_fields_set self ->
  fst (_process_deprecated_field classes self dep_field) = [] /\
  forall m' : Model,
    snd (_process_deprecated_field classes self dep_field) = Returns m' -> m' = self.
Proof.
  intros Hnot.
  destruct (process_outcomes self dep_field) as [[e He]|[[_ Hok]|Hsup]].
  - rewrite He. split; [reflexivity|]. intros m' H. discriminate H.
  - rewrite Hok. split; [reflexivity|]. intros m' H. injection H as <-. reflexivity.
  - destruct Hsup as (fields & fi & kw & value & pv & _ & _ & _ & _ & _ & Hin & _).
    contradiction.
Qed.

(** X2. A supplied deprecated field that names no replacement, or that was
    declared with [set_new_param=False], only gives the deprecation warning:
    the model is returned as it was given, nothing is removed or assigned. *)
Theorem field_without_replacement_only_warns
    (self : Model) (dep_field : string) (fields : list (string * FieldInfo))
    (fi : FieldInfo) (kw : SchemaExtra) (value param_value : PyVal) :
  fields_of classes self = Returns fields ->
  fields_get fields dep_field = Some fi ->
  json_schema_extra fi = Some kw ->
  getattr self dep_field = Returns value ->
  get_new_param_fn kw value = Returns param_value ->
  dep_field ∈ model_fields_set self ->
  nonempty (get_new_param kw) = false \/ get_set_new_param kw = false ->
  _process_deprecated_field classes self dep_field =
    ([(WARNING, warning_msg dep_field (get_new_param kw) (get_deprecated_msg kw))],
     Returns self).
Proof.
  intros Hf Hg Hk Ha Hp Hin Hoff.
  rewrite (process_unfold classes _ _ _ _ _ _ _ Hf Hg Hk Ha Hp).
  rewrite (bool_decide_eq_true_2 _ Hin), bind_logger.
  assert (Hcond : (nonempty (get_new_param kw) && get_set_new_param kw) = false).
  { destruct Hoff as [-> | ->]; [reflexivity|apply andb_false_r]. }
  rewrite Hcond. reflexivity.
Qed.

Lemma fields_set_grows (s : gset string) (x : string) : {[x]} ∪ s ⊆ s ∪ {[x]}.
Proof.
  intros y Hy. apply elem_of_union in Hy. apply elem_of_union. tauto.
Qed.

Lemma put_path_frame (root sub' : Model) (h : string) (r : list string) :
  m_cls (put_path root (h :: r) sub') = m_cls root /\
  model_fields_set (put_path root (h :: r) sub') = model_fields_set root /\
  forall k, k <> h -> m_attrs (put_path root (h :: r) sub') !! k = m_attrs root !! k.
Proof.
  cbn [put_path].
  destruct (m_attrs root !! h) as [[| | | | |child]|]; repeat split; try reflexivity.
  intros k Hk. cbn [m_attrs]. rewrite lookup_insert_ne by congruence. reflexivity.
Qed.

Lemma forward_steps_frame self dep_field new_field param_value log m' :
  forward_steps classes self dep_field new_field param_value = (log, Returns m') ->
  m_cls m' = m_cls self /\
  model_fields_set self ⊆ model_fields_set m' /\
  model_fields_set m' ⊆ model_fields_set self ∪ {[List.last (split_on "." new_field) ""]} /\
  forall k, k <> dep_field -> k <> hd "" (split_on "." new_field) ->
            m_attrs m' !! k = m_attrs self !! k.
Proof.
  intros Hfw.
  destruct (forward_steps_inv classes _ _ _ _ _ _ Hfw)
    as (root & sub & sub' & Hdel & Hres & Hset & ->).
  destruct (delattr_inv classes _ _ _ Hdel) as [d' ->].
  destruct (split_on_cons "." new_field) as (h & t & Hsegs).
  rewrite Hsegs. cbn [hd].
  destruct (path_shape _ _ _ Hsegs) as [[Hlead Hlast]|[r Hlead]].
  - rewrite Hsegs in Hlead, Hlast, Hres, Hset.
    rewrite Hlead in Hres |- *. cbn [resolve] in Hres. injection Hres as <-.
    rewrite Hlast in Hset |- *. apply setattr_inv in Hset. subst sub'.
    cbn [put_path m_cls model_fields_set m_attrs].
    split; [reflexivity|]. split; [apply union_subseteq_r|]. split; [apply fields_set_grows|].
    intros k Hkd Hkh.
    rewrite lookup_insert_ne by congruence.
    rewrite lookup_insert_ne by congruence. reflexivity.
  - rewrite Hsegs in Hlead. rewrite Hlead.
    destruct (put_path_frame
                (mkModel (m_cls self) (<[dep_field := d']> (m_attrs self))
                         (model_fields_set self)) sub' h r) as (Hc & Hs & Ha).
    rewrite Hc, Hs. cbn [m_cls model_fields_set].
    split; [reflexivity|]. split; [reflexivity|]. split; [apply union_subseteq_l|].
    intros k Hkd Hkh. rewrite (Ha k Hkh). cbn [m_attrs].
    rewrite lookup_insert_ne by congruence. reflexivity.
Qed.

Lemma process_frame self dep_field log m' :
  _process_deprecated_field classes self dep_field = (log, Returns m') ->
  m_cls m' = m_cls self /\ model_fields_set self ⊆ model_fields_set m'.
Proof.
  intros Hrun.
  destruct (process_outcomes self dep_field) as [[e He]|[[_ Hok]|Hsup]].
  - rewrite He in Hrun. discriminate.
  - rewrite Hok in Hrun. injection Hrun as _ <-. split; reflexivity.
  - destruct Hsup as (fields & fi & kw & value & pv & _ & _ & _ & _ & _ & _ & [[_ H]|[_ H]]).
    + rewrite H in Hrun. injection Hrun as _ <-. split; reflexivity.
    + rewrite H in Hrun.
      destruct (forward_steps classes self dep_field (get_new_param kw) pv)
        as [l r] eqn:Hfw.
      cbn [fst snd] in Hrun. injection Hrun as _ ->.
      destruct (forward_steps_frame _ _ _ _ _ _ Hfw) as (Hc & Hs & _). split; assumption.
Qed.

(** X3. What the pass may change when it handles the deprecated field [A]
    with the replacement path [B]: the model keeps its class; the fields
    marked as set stay marked, and at most the last name of [B] is added;
    every field other than [A] and the first name of [B] keeps its value. *)
Theorem pass_changes_only_the_two_fields
    (self m' : Model) (dep_field : string) (fields : list (string * FieldInfo))
    (fi : FieldInfo) (kw : SchemaExtra) (log : list LogRecord) :
  fields_of classes self = Returns fields ->
  fields_get fields dep_field = Some fi ->
  json_schema_extra fi = Some kw ->
  _process_deprecated_field classes self dep_field = (log, Returns m') ->
  m_cls m' = m_cls self /\
  model_fields_set self ⊆ model_fields_set m' /\
  model_fields_set m' ⊆
    model_fields_set self ∪ {[List.last (split_on "." (get_new_param kw)) ""]} /\
  forall k : string,
    k <> dep_field -> k <> hd "" (split_on "." (get_new_param kw)) ->
    m_attrs m' !! k = m_attrs self !! k.
Proof.
  intros Hf Hg Hk Hrun.
  destruct (process_outcomes self dep_field) as [[e He]|[[_ Hok]|Hsup]].
  - rewrite He in Hrun. discriminate.
  - rewrite Hok in Hrun. injection Hrun as _ <-.
    split; [reflexivity|]. split; [reflexivity|]. split; [apply union_subseteq_l|]. reflexivity.
  - destruct Hsup as (fields' & fi' & kw' & value & pv & Hf' & Hg' & Hk' & _ & _ & _ & Hcase).
    rewrite Hf in Hf'. injection Hf' as <-.
    rewrite Hg in Hg'. injection Hg' as <-.
    rewrite Hk in Hk'. injection Hk' as <-.
    destruct Hcase as [[_ H]|[_ H]]; rewrite H in Hrun.
    + injection Hrun as _ <-.
      split; [reflexivity|]. split; [reflexivity|]. split; [apply union_subseteq_l|]. reflexivity.
    + destruct (forward_steps classes self dep_field (get_new_param kw) pv)
        as [l r] eqn:Hfw.
      cbn [fst snd] in Hrun. injection Hrun as _ ->.
      exact (forward_steps_frame _ _ _ _ _ _ Hfw).
Qed.

(** The log of one step: nothing, a warning, or a warning and then one error
    record, the latter only when the step raises. *)
Lemma process_log_shape self dep_field :
  exists ws tail,
    fst (_process_deprecated_field classes self dep_field) = ws ++ tail /\
    Forall is_warning ws /\
    (tail = [] \/
     exists msg e, tail = [(ERROR, msg)] /\
                   snd (_process_deprecated_field classes self dep_field) = Raises e).
Proof.
  destruct (process_outcomes self dep_field) as [[e He]|[[_ Hok]|Hsup]].
  - rewrite He. exists [], []. split; [reflexivity|]. split; [constructor|left; reflexivity].
  - rewrite Hok. exists [], []. split; [reflexivity|]. split; [constructor|left; reflexivity].
  - destruct Hsup as (fields & fi & kw & value & pv & _ & _ & _ & _ & _ & _ & [[_ H]|[_ H]]);
      rewrite H.
    + eexists [_], []. split; [reflexivity|].
      split; [constructor; [reflexivity|constructor]|left; reflexivity].
    + destruct (forward_steps_outcomes self dep_field (get_new_param kw) pv)
        as [[m' Hfw]|[[e Hfw]|(msg & e & Hfw)]]; rewrite Hfw; cbn [fst snd].
      * eexists [_], []. split; [reflexivity|].
        split; [constructor; [reflexivity|constructor]|left; reflexivity].
      * eexists [_], []. split; [reflexivity|].
        split; [constructor; [reflexivity|constructor]|left; reflexivity].
      * eexists [_], [_]. split; [reflexivity|].
        split; [constructor; [reflexivity|constructor]|right; eauto].
Qed.

Lemma check_fields_log_shape (todo : list (string * FieldInfo)) : forall self : Model,
  exists ws tail,
    fst (check_fields classes todo self) = ws ++ tail /\
    Forall is_warning ws /\
    (tail = [] \/
     exists msg e, tail = [(ERROR, msg)] /\
                   snd (check_fields classes todo self) = Raises e).
Proof.
  induction todo as [|[n f] todo IH]; intros self.
  - exists [], []. split; [reflexivity|]. split; [constructor|left; reflexivity].
  - cbn [check_fields]. destruct (is_deprecated f); [|apply IH].
    destruct (process_log_shape self n) as (ws & tail & Hlog & Hws & Htail).
    destruct (_process_deprecated_field classes self n) as [l1 [m1|e]] eqn:Hp;
      cbn [fst snd] in Hlog, Htail.
    + destruct Htail as [->|(msg & e & _ & Hr)]; [|discriminate Hr].
      rewrite app_nil_r in Hlog. subst l1.
      destruct (IH m1) as (ws2 & tail2 & Hlog2 & Hws2 & Htail2).
      unfold bind. destruct (check_fields classes todo m1) as [l2 r2].
      cbn [fst snd] in *. subst l2.
      exists (ws ++ ws2), tail2. split; [apply app_assoc|].
      split; [apply Forall_app; split; assumption|exact Htail2].
    + rewrite bind_raises. cbn [fst snd]. exists ws, tail. repeat split; assumption.
Qed.

Lemma check_fields_frame (todo : list (string * FieldInfo)) :
  forall (self m' : Model) (log : list LogRecord),
    check_fields classes todo self = (log, Returns m') ->
    m_cls m' = m_cls self /\ model_fields_set self ⊆ model_fields_set m'.
Proof.
  induction todo as [|[n f] todo IH]; intros self m' log Hrun.
  - injection Hrun as _ <-. split; reflexivity.
  - cbn [check_fields] in Hrun. destruct (is_deprecated f); [|exact (IH _ _ _ Hrun)].
    destruct (_process_deprecated_field classes self n) as [l1 [m1|e]] eqn:Hp;
      [|discriminate].
    unfold bind in Hrun.
    destruct (check_fields classes todo m1) as [l2 r2] eqn:Hrest.
    injection Hrun as _ ->.
    destruct (process_frame _ _ _ _ Hp) as [Hc1 Hs1].
    destruct (IH _ _ _ Hrest) as [Hc2 Hs2].
    split; [congruence|]. transitivity (model_fields_set m1); assumption.
Qed.

(** X4. The log of a construction: warnings, then at most one error record,
    which is the last record and is written only when construction raises. A
    construction that returns has logged warnings only. *)
Theorem errors_are_logged_last
    (cname : string) (strict : bool) (data : gmap string PyVal) :
  exists (ws tail : list LogRecord),
    fst (__init__ classes cname strict data) = ws ++ tail /\
    Forall (fun r => fst r = WARNING) ws /\
    (tail = [] \/
     exists msg e, tail = [(ERROR, msg)] /\
                   snd (__init__ classes cname strict data) = Raises e).
Proof.
  unfold __init__, lift.
  destruct (BaseModel_init classes cname (init_data strict data)) as [self|e].
  2:{ exists [], []. split; [reflexivity|]. split; [constructor|left; reflexivity]. }
  rewrite bind_returns. unfold _deprecated_fields_check, lift.
  destruct (fields_of classes self) as [fields|e].
  2:{ exists [], []. split; [reflexivity|]. split; [constructor|left; reflexivity]. }
  rewrite bind_returns. apply check_fields_log_shape.
Qed.

(** X5. A constructed model has the class it was asked for, and every key of
    the mapping handed to validation is still marked as set after the pass
    over the deprecated fields. *)
Theorem supplied_fields_stay_marked
    (cname : string) (strict : bool) (data : gmap string PyVal)
    (log : list LogRecord) (m : Model) :
  __init__ classes cname strict data = (log, Returns m) ->
  m_cls m = cname /\ dom (init_data strict data) ⊆ model_fields_set m.
Proof.
  unfold __init__, lift. intros Hrun.
  destruct (BaseModel_init classes cname (init_data strict data)) as [self|e] eqn:Hinit;
    [|discriminate].
  rewrite bind_returns in Hrun.
  destruct (BaseModel_init_returns classes _ _ _ Hinit) as (c & attrs & _ & _ & ->).
  unfold _deprecated_fields_check, lift in Hrun.
  destruct (fields_of classes _) as [fields|e]; [|discriminate].
  rewrite bind_returns in Hrun.
  exact (check_fields_frame _ _ _ _ Hrun).
Qed.

(** X6. For a class that declares no deprecated field, construction is the
    schema engine's validation alone: nothing is logged, and the outcome is
    the validated model or the engine's error. *)
Theorem class_without_deprecated_fields
    (cname : string) (c : ModelClass) (strict : bool) (data : gmap string PyVal) :
  classes cname = Some c ->
  no_deprecated (model_fields c) ->
  __init__ classes cname strict data =
    ([], BaseModel_init classes cname (init_data strict data)).
Proof.
  intros Hc Hnone. unfold __init__, lift.
  destruct (BaseModel_init classes cname (init_data strict data)) as [self|e] eqn:Hinit;
    [|reflexivity].
  rewrite bind_returns.
  destruct (BaseModel_init_returns classes _ _ _ Hinit) as (c' & attrs & Hc' & _ & ->).
  rewrite Hc in Hc'. injection Hc' as <-.
  unfold _deprecated_fields_check, lift, fields_of. cbn [m_cls]. rewrite Hc, bind_returns.
  apply check_fields_none. exact Hnone.
Qed.

Lemma init_data_without_auto (data : gmap string PyVal) :
  (forall k, data !! k = Some (VStr "auto") -> k = "replace_method") ->
  init_data false data = data.
Proof.
  intros Hauto. unfold init_data. cbn [negb].
  apply map_filter_id. intros k v Hkv. apply keep_spec.
  destruct (is_auto v) eqn:Hv.
  - apply is_auto_spec in Hv. subst v. right. apply Hauto. exact Hkv.
  - left. intros Heq. apply is_auto_spec in Heq. congruence.
Qed.

(** X7. [strict] only matters for the text ["auto"]: when no entry other than
    [replace_method] holds it, construction with [strict=False] and with
    [strict=True] log the same records and have the same outcome. *)
Theorem strict_only_matters_for_auto
    (cname : string) (data : gmap string PyVal) :
  (forall k, data !! k = Some (VStr "auto") -> k = "replace_method") ->
  __init__ classes cname false data = __init__ classes cname true data.
Proof.
  intros Hauto. unfold __init__.
  rewrite (init_data_without_auto data Hauto). reflexivity.
Qed.




(** X17. No supplied deprecated field, no log: when none of the keys handed
    to validation is a deprecated field of the class, construction writes no
    log record, and its outcome is the schema engine's (the validated model
    or the engine's error) unless a step of the pass raises. *)
Theorem no_log_without_deprecated_input
    (cname : string) (c : ModelClass) (strict : bool) (data : gmap string PyVal) :
  classes cname = Some c ->
  (forall n f, In (n, f) (model_fields c) -> is_deprecated f = true ->
               init_data strict data !! n = None) ->
  __init__ classes cname strict data =
    ([], BaseModel_init classes cname (init_data strict data)) \/
  exists e : PyExc, __init__ classes cname strict data = ([], Raises e).
Proof.
  intros Hc Hnone. unfold __init__, lift.
  destruct (BaseModel_init classes cname (init_data strict data)) as [self|e] eqn:Hinit;
    [|left; reflexivity].
  rewrite bind_returns.
  destruct (BaseModel_init_returns classes _ _ _ Hinit) as (c' & attrs & Hc' & _ & ->).
  rewrite Hc in Hc'. injection Hc' as <-.
  unfold _deprecated_fields_check, lift, fields_of. cbn [m_cls]. rewrite Hc, bind_returns.
  rewrite <- (app_nil_r (model_fields c)).
  destruct (check_fields_unsupplied_prefix classes
              (mkModel cname attrs (dom (init_data strict data))) [] (model_fields c))
    as [Hok|[e He]].
  - intros n f Hin Hdep. cbn [model_fields_set]. apply not_elem_of_dom.
    exact (Hnone n f Hin Hdep).
  - left. rewrite Hok. reflexivity.
  - right. exists e. exact He.
Qed.

End ConfigExtras.

(** * The pass on more example classes *)

Section ConfigExtrasExamples.
Import Config Examples.

Lemma unsupplied_field_is_left_alone_witness :
  let m := mkModel "Outer" (<["old" := VInt 0]> (<["sub" := VObj sub_default]> ∅)) ∅ in
  fst (_process_deprecated_field classes m "old") = [] /\
  forall m' : Model,
    snd (_process_deprecated_field classes m "old") = Returns m' -> m' = m.
Proof.
  intros m. apply (unsupplied_field_is_left_alone classes m "old").
  apply not_elem_of_empty.
Defined.

Lemma field_without_replacement_only_warns_witness :
  _process_deprecated_field MoreExamples.classes MoreExamples.retired_both "old_flag" =
    ([(WARNING, "Config parameter old_flag is deprecated. it has no effect")],
     Returns MoreExamples.retired_both) /\
  _process_deprecated_field MoreExamples.classes MoreExamples.retired_both "old_size" =
    ([(WARNING, "Config parameter old_size is deprecated use size instead")],
     Returns MoreExamples.retired_both).
Proof.
  split.
  - apply (field_without_replacement_only_warns MoreExamples.classes
             MoreExamples.retired_both "old_flag" (model_fields MoreExamples.Retired)
             (mkField (Some (VBool false)) (fun _ => true)
                (Some (mkExtra (Some true) (Some "it has no effect") None None None)))
             (mkExtra (Some true) (Some "it has no effect") None None None)
             (VBool true) (VBool true));
      first [reflexivity | left; reflexivity].
  - apply (field_without_replacement_only_warns MoreExamples.classes
             MoreExamples.retired_both "old_size" (model_fields MoreExamples.Retired)
             (mkField (Some (VInt 0)) is_int
                (Some (mkExtra (Some true) None (Some "size") (Some false) None)))
             (mkExtra (Some true) None (Some "size") (Some false) None)
             (VInt 5) (VInt 5));
      first [reflexivity | right; reflexivity].
Defined.

Lemma pass_changes_only_the_two_fields_witness :
  exists (log : list LogRecord) (m' : Model),
    _process_deprecated_field classes outer_old "old" = (log, Returns m') /\
    m_cls m' = m_cls outer_old /\
    model_fields_set outer_old ⊆ model_fields_set m' /\
    model_fields_set m' ⊆ model_fields_set outer_old ∪ {["x"]} /\
    forall k : string, k <> "old" -> k <> "sub" -> m_attrs m' !! k = m_attrs outer_old !! k.
Proof.
  assert (Hrun : { r : list LogRecord * Model |
                   _process_deprecated_field classes outer_old "old" = (fst r, Returns (snd r)) }).
  { eexists (_, _). vm_compute. reflexivity. }
  destruct Hrun as [[log m'] Hrun]. exists log, m'. split; [exact Hrun|].
  exact (pass_changes_only_the_two_fields classes outer_old m' "old"
           (model_fields Outer)
           (mkField (Some (VInt 0)) is_int
              (Some (mkExtra (Some true) (Some "gone soon") (Some "sub.x") None None)))
           (mkExtra (Some true) (Some "gone soon") (Some "sub.x") None None)
           log eq_refl eq_refl eq_refl Hrun).
Defined.

Lemma supplied_fields_stay_marked_witness :
  exists (log : list LogRecord) (m : Model),
    __init__ classes "Outer" false (<["old" := VInt 9]> ∅) = (log, Returns m) /\
    m_cls m = "Outer" /\
    dom (init_data false (<["old" := VInt 9]> ∅)) ⊆ model_fields_set m.
Proof.
  assert (Hrun : { r : list LogRecord * Model |
                   __init__ classes "Outer" false (<["old" := VInt 9]> ∅)
                   = (fst r, Returns (snd r)) }).
  { eexists (_, _). vm_compute. reflexivity. }
  destruct Hrun as [[log m] Hrun]. exists log, m. split; [exact Hrun|].
  exact (supplied_fields_stay_marked classes "Outer" false (<["old" := VInt 9]> ∅)
           log m Hrun).
Defined.

Lemma plain_has_no_deprecated_field : no_deprecated (model_fields MoreExamples.Plain).
Proof.
  repeat (apply no_deprecated_plain; [reflexivity|]). apply no_deprecated_nil.
Qed.

Lemma class_without_deprecated_fields_witness :
  __init__ MoreExamples.classes "Plain" false
      (<["name" := VStr "zero"]> (<["stage" := VStr "auto"]> ∅)) =
    ([], BaseModel_init MoreExamples.classes "Plain"
           (init_data false (<["name" := VStr "zero"]> (<["stage" := VStr "auto"]> ∅)))) /\
  __init__ MoreExamples.classes "Plain" true ∅ =
    ([], BaseModel_init MoreExamples.classes "Plain" (init_data true ∅)).
Proof.
  split.
  - apply (class_without_deprecated_fields MoreExamples.classes "Plain" MoreExamples.Plain);
      [reflexivity|exact plain_has_no_deprecated_field].
  - apply (class_without_deprecated_fields MoreExamples.classes "Plain" MoreExamples.Plain);
      [reflexivity|exact plain_has_no_deprecated_field].
Defined.

Lemma strict_only_matters_for_auto_witness :
  let data := <["replace_method" := VStr "auto"]> (<["name" := VStr "zero"]> ∅) in
  __init__ MoreExamples.classes "Plain" false data =
  __init__ MoreExamples.classes "Plain" true data.
Proof.
  intros data. apply (strict_only_matters_for_auto MoreExamples.classes "Plain" data).
  intros k Hk. unfold data in Hk.
  destruct (decide (k = "replace_method")) as [->|Hne]; [reflexivity|].
  rewrite lookup_insert_ne in Hk by congruence.
  destruct (decide (k = "name")) as [->|Hne'].
  - rewrite lookup_insert_eq in Hk. discriminate Hk.
  - rewrite lookup_insert_ne in Hk by congruence. rewrite lookup_empty in Hk. discriminate Hk.
Defined.


Lemma no_log_without_deprecated_input_witness :
  let data := <["sub" := VObj sub_x3]> ∅ in
  __init__ classes "Outer" true data = ([], BaseModel_init classes "Outer" (init_data true data)) \/
  exists e : PyExc, __init__ classes "Outer" true data = ([], Raises e).
Proof.
  intros data.
  apply (no_log_without_deprecated_input classes "Outer" Outer true data); [reflexivity|].
  intros n f Hin Hdep. cbn [model_fields Outer] in Hin.
  destruct Hin as [Heq|[Heq|[]]]; injection Heq as <- <-.
  - discriminate Hdep.
  - vm_compute. reflexivity.
Defined.

End ConfigExtrasExamples.

(** * More on the encoder *)

Section EncoderExtras.
Import Fmt Encoder Shape.

(** The line feed character. *)
Local Abbreviation newline := ("010"%char).

(** The error Python's [float] raises on an [int] that is too large. *)
Local Abbreviation too_large := (OverflowError "int too large to convert to float").

(** Induction on encoded values, with the hypothesis for every element of a
    sequence and every value of a mapping. *)
Lemma JVal_nested_ind (P : JVal -> Prop) :
  P JNull ->
  (forall b, P (JBool b)) ->
  (forall z, P (JInt z)) ->
  (forall f, P (JFloat f)) ->
  (forall s, P (JStr s)) ->
  (forall l, Forall P l -> P (JList l)) ->
  (forall items, Forall (fun kv => P (snd kv)) items -> P (JDict items)) ->
  forall o, P o.
Proof.
  intros Hnull Hbool Hint Hfloat Hstr Hlist Hdict.
  fix IH 1. intros [| b | z | f | s | l | items].
  - exact Hnull.
  - apply Hbool.
  - apply Hint.
  - apply Hfloat.
  - apply Hstr.
  - apply Hlist. induction l as [|v l IHl]; constructor; [apply IH|exact IHl].
  - apply Hdict. induction items as [|[k v] items IHi]; constructor; [apply IH|exact IHi].
Qed.

(** [iterencode] on a sequence and on a mapping, element by element. *)
Lemma iterencode_sequence (self_indent : option Z) (l : list JVal) (level : Z) :
  iterencode self_indent (JList l) level =
    exc_bind (traverse (fun v => iterencode self_indent v 0) l)
             (fun texts => Returns (render_sequence texts)).
Proof.
  cbn [iterencode].
  match goal with
  | |- exc_bind (?each l) _ = _ =>
      assert (Heach : each l = traverse (fun v => iterencode self_indent v 0) l)
  end.
  { induction l as [|v l IHl]; [reflexivity|].
    cbn [traverse]. rewrite <- IHl. reflexivity. }
  rewrite Heach. reflexivity.
Qed.

Lemma iterencode_mapping (self_indent : option Z) (items : list (string * JVal)) (level : Z) :
  iterencode self_indent (JDict items) level =
    exc_bind (traverse (fun kv =>
                exc_bind (iterencode self_indent (snd kv) (level + 1)) (fun text =>
                Returns (render_pair (indent_width self_indent) (level + 1) (fst kv) text)))
              items)
             (fun texts =>
                Returns ("{" +:+ join ", " texts +:+
                         String newline (spaces (level * indent_width self_indent)) +:+ "}")).
Proof.
  cbn [iterencode]. fold (indent_width self_indent).
  match goal with
  | |- exc_bind (?each items) _ = exc_bind (traverse ?f items) _ =>
      assert (Heach : each items = traverse f items)
  end.
  { induction items as [|[k v] items IHi]; [reflexivity|].
    cbn [traverse fst snd]. rewrite <- IHi.
    destruct (iterencode self_indent v (level + 1)); reflexivity. }
  rewrite Heach. reflexivity.
Qed.

Lemma traverse_ext {A : Type} (f g : A -> Exc string) (l : list A) :
  Forall (fun a => f a = g a) l -> traverse f l = traverse g l.
Proof.
  induction 1 as [|a l Ha _ IH]; [reflexivity|].
  cbn [traverse]. rewrite Ha, IH. reflexivity.
Qed.

(** *** Which values the encoder refuses *)






End EncoderExtras.

(** * The lines of an encoded text *)

Section EncoderLines.
Import Fmt Encoder Shape.

(** The line feed character. *)
Local Abbreviation newline := ("010"%char).

(** A list of characters without a line feed. *)
Local Abbreviation clean l :=
  (forallb (fun a : ascii => negb (Ascii.eqb a newline)) l = true).

Lemma clean_one_line (l : list ascii) :
  clean l -> one_line (string_of_list_ascii l).
Proof.
  unfold one_line. induction l as [|a l IH]; intros Hl; [reflexivity|].
  cbn [forallb] in Hl. apply andb_true_iff in Hl. destruct Hl as [Ha Hl].
  cbn [string_of_list_ascii contains_char].
  apply negb_true_iff in Ha. rewrite Ha, (IH Hl). reflexivity.
Qed.

Lemma digit_is_no_line_feed (c : ascii) :
  is_digit c = true -> negb (Ascii.eqb c newline) = true.
Proof.
  intros Hc. apply negb_true_iff.
  destruct (Ascii.eqb_spec c newline) as [->|_]; [discriminate Hc|reflexivity].
Qed.

Lemma digits_clean (l : list ascii) : forallb is_digit l = true -> clean l.
Proof.
  induction l as [|a l IH]; intros Hl; [reflexivity|].
  cbn [forallb] in Hl |- *. apply andb_true_iff in Hl. destruct Hl as [Ha Hl].
  rewrite (digit_is_no_line_feed a Ha), (IH Hl). reflexivity.
Qed.

Lemma is_digit_digit_char_le (d : Z) : d <= 9 -> is_digit (digit_char d) = true.
Proof.
  intros Hd. destruct (Z_lt_le_dec d 0) as [Hneg|Hpos].
  - destruct d as [|p|p]; try lia. reflexivity.
  - apply is_digit_digit_char. lia.
Qed.

(** [digits] gives decimal digits on every integer. *)
Lemma digits_fuel_digits (fuel : nat) : forall (n : Z) (acc : list ascii),
  forallb is_digit acc = true ->
  forallb is_digit (digits_fuel fuel n acc) = true.
Proof.
  induction fuel as [|f IH]; intros n acc Hacc; cbn [digits_fuel].
  - exact Hacc.
  - destruct (n <? 10) eqn:Hlt.
    + apply Z.ltb_lt in Hlt. cbn [forallb].
      rewrite is_digit_digit_char_le by lia. exact Hacc.
    + apply IH. cbn [forallb]. rewrite is_digit_digit_char_le; [exact Hacc|].
      pose proof (Z.mod_pos_bound n 10). lia.
Qed.

Lemma digits_of_any_clean (n : Z) : clean (digits n).
Proof.
  apply digits_clean. unfold digits. apply digits_fuel_digits. reflexivity.
Qed.

Lemma zeros_clean (n : nat) : clean (zeros n).
Proof.
  induction n as [|k IH]; [reflexivity|]. cbn [zeros forallb]. rewrite IH. reflexivity.
Qed.

Lemma clean_app (a b : list ascii) : clean a -> clean b -> clean (a ++ b).
Proof.
  intros Ha Hb. rewrite forallb_app, Ha, Hb. reflexivity.
Qed.

Lemma clean_split (k : nat) (l : list ascii) :
  clean l -> clean (firstn k l) /\ clean (skipn k l).
Proof.
  intros Hl. rewrite <- (firstn_skipn k l), forallb_app in Hl.
  apply andb_true_iff in Hl. exact Hl.
Qed.

Lemma exponent_text_one_line (x : Z) : one_line (exponent_text x).
Proof.
  unfold exponent_text, one_line. cbn [contains_char].
  change (Ascii.eqb "e" newline) with false.
  assert (Hsign : Ascii.eqb (if x <? 0 then "-"%char else "+"%char) newline = false)
    by (destruct (x <? 0); reflexivity).
  rewrite Hsign. cbn [orb]. apply clean_one_line.
  destruct (Z.abs x <? 10); [cbn [forallb]|]; apply digits_of_any_clean.
Qed.

Lemma exp_notation_one_line (text : string) : exp_notation text -> one_line text.
Proof.
  intros (lead & frac & ex & -> & Hlead & _ & _ & Hfrac & _ & Hex).
  unfold one_line. cbn [contains_char]. rewrite contains_char_app. cbn [contains_char].
  apply digit_is_no_line_feed, negb_true_iff in Hlead. rewrite Hlead.
  rewrite (clean_one_line frac (digits_clean frac Hfrac)).
  rewrite (clean_one_line ex (digits_clean ex Hex)). reflexivity.
Qed.

Lemma float_den_positive (e : Z) : 0 < float_den e.
Proof.
  unfold float_den. destruct (0 <=? e) eqn:He; [lia|].
  apply Z.leb_gt in He. apply Z.pow_pos_nonneg; lia.
Qed.

Lemma format_e_float_one_line (f : spec_float) :
  float_gt_1e3 f = true -> one_line (format_e_float f).
Proof.
  intros Hgt. destruct f as [s|[|]| |[|] m e]; try discriminate Hgt; [reflexivity|].
  cbn [float_gt_1e3] in Hgt. apply Z.ltb_lt in Hgt. cbn [format_e_float].
  pose proof (float_den_positive e) as Hden.
  apply exp_notation_one_line, format_e_pos_shape; [exact Hden|lia].
Qed.

Lemma repr_pos_one_line (m : positive) (e : Z) : one_line (repr_pos m e).
Proof.
  unfold repr_pos.
  destruct (shortest_from 17 1 m e _) as [c0 p0].
  destruct (strip_zeros 20 c0 p0) as [c p].
  pose proof (digits_of_any_clean c) as Hds.
  set (ds := digits c) in *.
  set (decpt := Z.of_nat (length ds) + p).
  destruct ((decpt <=? -4) || (16 <? decpt)).
  { unfold one_line. rewrite contains_char_app.
    rewrite (exponent_text_one_line (decpt - 1)), orb_false_r.
    apply clean_one_line.
    destruct ds as [|d0 [|d1 r]]; [reflexivity|exact Hds|].
    cbn [hd tl forallb] in Hds |- *.
    apply andb_true_iff in Hds. destruct Hds as [-> Hr]. exact Hr. }
  destruct (decpt <=? 0).
  { apply clean_one_line. cbn [forallb].
    apply clean_app; [apply zeros_clean|exact Hds]. }
  destruct (decpt <? Z.of_nat (length ds)).
  { apply clean_one_line.
    destruct (clean_split (Z.to_nat decpt) ds Hds) as [Hfirst Hrest].
    apply clean_app; [exact Hfirst|]. cbn [forallb]. exact Hrest. }
  apply clean_one_line.
  apply clean_app; [exact Hds|]. apply clean_app; [apply zeros_clean|reflexivity].
Qed.

Lemma float_repr_one_line (f : spec_float) : one_line (float_repr f).
Proof.
  destruct f as [[|]|[|]| |[|] m e]; try reflexivity; cbn [float_repr].
  - unfold one_line. cbn [contains_char]. exact (repr_pos_one_line m e).
  - exact (repr_pos_one_line m e).
Qed.

Lemma str_int_one_line (z : Z) : one_line (str_int z).
Proof.
  unfold str_int. destruct (z <? 0).
  - unfold one_line. cbn [contains_char].
    exact (clean_one_line _ (digits_of_any_clean (- z))).
  - exact (clean_one_line _ (digits_of_any_clean z)).
Qed.

Lemma escape_char_one_line (c : ascii) : one_line (escape_char c).
Proof.
  destruct c as [[|] [|] [|] [|] [|] [|] [|] [|]]; vm_compute; reflexivity.
Qed.

Lemma encode_basestring_ascii_one_line (s : string) : one_line (encode_basestring_ascii s).
Proof.
  unfold encode_basestring_ascii, one_line. cbn [contains_char].
  rewrite contains_char_app.
  assert (Hbody : contains_char newline (escape_body s) = false).
  { induction s as [|c r IH]; [reflexivity|].
    cbn [escape_body]. rewrite contains_char_app, IH, (escape_char_one_line c). reflexivity. }
  rewrite Hbody. reflexivity.
Qed.

Lemma traverse_all {A : Type} (f : A -> Exc string) (Q : string -> Prop) (l : list A) :
  Forall (fun a => forall text, f a = Returns text -> Q text) l ->
  forall texts, traverse f l = Returns texts -> Forall Q texts.
Proof.
  induction 1 as [|a l Ha _ IH]; intros texts Hrun.
  - injection Hrun as <-. constructor.
  - cbn [traverse] in Hrun.
    destruct (f a) as [text|e]; [|discriminate]. cbn [exc_bind] in Hrun.
    destruct (traverse f l) as [rest|e]; [|discriminate]. cbn [exc_bind] in Hrun.
    injection Hrun as <-. constructor; [apply Ha; reflexivity|apply IH; reflexivity].
Qed.

Lemma flat_value_one_line (o : JVal) :
  no_mapping o = true ->
  forall (self_indent : option Z) (level : Z) (text : string),
    iterencode self_indent o level = Returns text -> one_line text.
Proof.
  induction o as [| b | z | f | s | l IH | items IH] using JVal_nested_ind;
    intros Hflat self_indent level text Hrun.
  - injection Hrun as <-. reflexivity.
  - injection Hrun as <-. destruct b; reflexivity.
  - cbn [iterencode] in Hrun. destruct (1000 <? z) eqn:Hbig.
    + apply Z.ltb_lt in Hbig. unfold format_e_int in Hrun.
      destruct (float_of_int z) as [v|e] eqn:Hv; [|discriminate].
      injection Hrun as <-.
      apply exp_notation_one_line, format_e_pos_shape; [lia|].
      apply (float_of_int_positive z v); [lia|exact Hv].
    + injection Hrun as <-. apply str_int_one_line.
  - cbn [iterencode] in Hrun. destruct (float_gt_1e3 f) eqn:Hgt; injection Hrun as <-.
    + apply format_e_float_one_line. exact Hgt.
    + apply float_repr_one_line.
  - injection Hrun as <-. exact (encode_basestring_ascii_one_line s).
  - rewrite iterencode_sequence in Hrun. cbn [no_mapping] in Hflat.
    destruct (traverse _ l) as [texts|e] eqn:Hall; [|discriminate].
    injection Hrun as <-.
    assert (Htexts : Forall one_line texts).
    { apply (traverse_all (fun v => iterencode self_indent v 0) one_line l); [|exact Hall].
      rewrite forallb_forall in Hflat. rewrite List.Forall_forall in IH |- *.
      intros v Hin text. apply (IH v Hin (Hflat v Hin)). }
    unfold render_sequence, one_line. rewrite !contains_char_app.
    rewrite (contains_char_join newline ", " texts eq_refl); [reflexivity|].
    apply forallb_forall. rewrite List.Forall_forall in Htexts.
    intros text Hin. apply negb_true_iff. exact (Htexts text Hin).
  - discriminate Hflat.
Qed.

Lemma flat_value_ignores_depth (o : JVal) :
  no_mapping o = true ->
  forall (self_indent other_indent : option Z) (level other_level : Z),
    iterencode other_indent o other_level = iterencode self_indent o level.
Proof.
  induction o as [| b | z | f | s | l IH | items IH] using JVal_nested_ind;
    intros Hflat self_indent other_indent level other_level; try reflexivity.
  - rewrite !iterencode_sequence. cbn [no_mapping] in Hflat.
    rewrite (traverse_ext (fun v => iterencode other_indent v 0)
                          (fun v => iterencode self_indent v 0)); [reflexivity|].
    rewrite forallb_forall in Hflat. rewrite List.Forall_forall in IH |- *.
    intros v Hin. apply (IH v Hin (Hflat v Hin)).
  - discriminate Hflat.
Qed.

(** X10. A value that holds no mapping is rendered in one line, and the same
    way whatever the indent width of the encoder and the nesting depth it is
    met at: the text has no line feed, even when a text value holds one. *)
Theorem values_without_mappings_take_one_line (o : JVal) :
  no_mapping o = true ->
  forall (self_indent : option Z) (level : Z),
    (forall (other_indent : option Z) (other_level : Z),
        iterencode other_indent o other_level = iterencode self_indent o level) /\
    (forall text : string,
        iterencode self_indent o level = Returns text -> one_line text).
Proof.
  intros Hflat self_indent level. split.
  - intros other_indent other_level. apply flat_value_ignores_depth. exact Hflat.
  - intros text. apply flat_value_one_line. exact Hflat.
Qed.

(** X18. A sequence forgets the depth it is met at: its elements are encoded
    at depth 0, so a mapping inside a sequence is laid out like a top-level
    mapping, however deep the sequence is nested. *)
Theorem sequence_resets_the_depth
    (self_indent : option Z) (l : list JVal) (level : Z) :
  iterencode self_indent (JList l) level = iterencode self_indent (JList l) 0 /\
  forall (items : list (string * JVal)) (text : string),
    0 <= level ->
    iterencode self_indent (JDict items) 0 = Returns text ->
    iterencode self_indent (JDict [("k", JList [JDict items])]) level =
      Returns (render_mapping (indent_width self_indent) level [("k", "[" +:+ text +:+ "]")]).
Proof.
  split.
  - rewrite !iterencode_sequence. reflexivity.
  - intros items text _ Hrun.
    apply (mapping_items self_indent level [("k", JList [JDict items])]
             ["[" +:+ text +:+ "]"]).
    constructor; [|constructor]. cbn [snd].
    apply (sequence_elements self_indent (level + 1) [JDict items] [text]).
    constructor; [exact Hrun|constructor].
Qed.

Lemma spaces_nonpositive (n : Z) : n <= 0 -> spaces n = EmptyString.
Proof.
  intros Hn. unfold spaces. destruct n as [|p|p]; try lia; reflexivity.
Qed.

(** X11. An indent width that is not positive gives the layout of the indent
    width 0: every pair of a mapping starts at the beginning of its line. *)
Theorem nonpositive_indent_is_indent_zero (i : Z) (o : JVal) (level : Z) :
  i <= 0 -> 0 <= level ->
  iterencode (Some i) o level = iterencode (Some 0) o level.
Proof.
  intros Hi. revert level.
  induction o as [| b | z | f | s | l IH | items IH] using JVal_nested_ind;
    intros level Hlevel; try reflexivity.
  - rewrite !iterencode_sequence.
    rewrite (traverse_ext (fun v => iterencode (Some i) v 0)
                          (fun v => iterencode (Some 0) v 0)); [reflexivity|].
    eapply Forall_impl; [exact IH|]. intros v Hv. apply Hv. lia.
  - rewrite !iterencode_mapping. cbn [indent_width].
    rewrite (spaces_nonpositive (level * i)) by nia.
    rewrite (spaces_nonpositive (level * 0)) by lia.
    rewrite (traverse_ext
               (fun kv => exc_bind (iterencode (Some i) (snd kv) (level + 1)) (fun text =>
                  Returns (render_pair i (level + 1) (fst kv) text)))
               (fun kv => exc_bind (iterencode (Some 0) (snd kv) (level + 1)) (fun text =>
                  Returns (render_pair 0 (level + 1) (fst kv) text)))); [reflexivity|].
    eapply Forall_impl; [exact IH|]. intros [k v] Hv. cbn [fst snd] in *.
    rewrite Hv by lia.
    destruct (iterencode (Some 0) v (level + 1)) as [text|e]; [|reflexivity].
    cbn [exc_bind]. unfold render_pair.
    rewrite (spaces_nonpositive ((level + 1) * i)) by nia.
    rewrite (spaces_nonpositive ((level + 1) * 0)) by lia. reflexivity.
Qed.

End EncoderLines.

(** * [DeepSpeedConfigObject] *)

Section ConfigObjectProperties.
Import Encoder ConfigObject.

Lemma join_chars (text : string) : join "" (chars text) = text.
Proof.
  unfold chars. induction text as [|c r IH]; [reflexivity|].
  cbn [list_ascii_of_string map] in IH |- *.
  destruct r as [|c' r']; [reflexivity|].
  cbn [list_ascii_of_string map] in IH |- *.
  cbn [join] in IH |- *. cbn [String.append]. rewrite IH. reflexivity.
Qed.

Lemma encode_iterencode (self_indent : option Z) (o : JVal) :
  encode self_indent o = iterencode self_indent o 0.
Proof.
  destruct o as [| b | z | f | s | l | items]; try reflexivity; unfold encode;
    destruct (iterencode self_indent _ 0) as [text|e]; cbn [exc_bind];
    try rewrite join_chars; reflexivity.
Qed.

(** X12. [repr] of a [DeepSpeedConfigObject] is the text the encoder's own
    [iterencode] gives for the attributes at indent width 4: turning that text
    into a list and joining it again changes nothing, and the [sort_keys]
    option is not honoured, the attributes appear in the order in which they
    were set. *)
Theorem repr_is_the_encoders_text (self__dict__ : list (string * JVal)) :
  __repr__ self__dict__ = iterencode (Some 4) (JDict (repr self__dict__)) 0 /\
  (forall (o : JVal) (sort_keys : bool) (indent : option Z),
      dumps o sort_keys indent = iterencode indent o 0) /\
  (forall rendered : list string,
      Forall2 (fun kv text => iterencode (Some 4) (snd kv) 1 = Returns text)
              self__dict__ rendered ->
      __repr__ self__dict__ =
        Returns (render_mapping 4 0 (combine (map fst self__dict__) rendered))).
Proof.
  split; [apply encode_iterencode|].
  split; [intros o sort_keys indent; apply encode_iterencode|].
  intros rendered Hall. unfold __repr__, dumps. rewrite encode_iterencode.
  exact (mapping_items (Some 4) 0 self__dict__ rendered Hall).
Qed.

Example config_object_keeps_insertion_order :
  __repr__ [("zero", JBool true); ("batch", JInt 32000)] =
    Returns ("{" +:+ String "010" "    " +:+ String dquote "zero" +:+ String dquote ": true, "
             +:+ String "010" "    " +:+ String dquote "batch" +:+ String dquote ": "
             +:+ "3.200000e+04" +:+ String "010" "}").
Proof.
  vm_compute. reflexivity.
Qed.

Lemma values_without_mappings_take_one_line_witness :
  let o := JList [JInt 1; JStr (String "010" "a"); JList [JBool true; JNull]] in
  (forall (other_indent : option Z) (other_level : Z),
      iterencode other_indent o other_level = iterencode (Some 2) o 3) /\
  (forall text : string,
      iterencode (Some 2) o 3 = Returns text -> Shape.one_line text).
Proof.
  intros o. apply (values_without_mappings_take_one_line o eq_refl (Some 2) 3).
Defined.

Lemma nonpositive_indent_is_indent_zero_witness :
  let o := JDict [("a", JList [JInt 1]); ("b", JDict [("c", JNull)])] in
  iterencode (Some (-2)) o 0 = iterencode (Some 0) o 0.
Proof.
  intros o. apply (nonpositive_indent_is_indent_zero (-2) o 0); lia.
Defined.

End ConfigObjectProperties.

(** * More on [pp_int] *)

Section PpIntExtras.
Import PpInt Shape.

Lemma without_commas_app (a b : string) :
  without_commas (a +:+ b) = without_commas a +:+ without_commas b.
Proof.
  induction a as [|c a IH]; [reflexivity|].
  change (String c a +:+ b) with (String c (a +:+ b)).
  cbn [without_commas]. rewrite IH.
  destruct (Ascii.eqb c ","); reflexivity.
Qed.

Lemma digit_is_no_comma (c : ascii) : is_digit c = true -> Ascii.eqb c "," = false.
Proof.
  intros Hc. destruct (Ascii.eqb_spec c ",") as [->|_]; [discriminate Hc|reflexivity].
Qed.

Lemma without_commas_digits (l : list ascii) :
  forallb is_digit l = true ->
  without_commas (string_of_list_ascii l) = string_of_list_ascii l.
Proof.
  induction l as [|c l IH]; intros Hl; [reflexivity|].
  cbn [forallb] in Hl. apply andb_true_iff in Hl. destruct Hl as [Hc Hl].
  cbn [string_of_list_ascii without_commas].
  rewrite (digit_is_no_comma c Hc), (IH Hl). reflexivity.
Qed.

Lemma text_of_app (a b : list ascii) :
  string_of_list_ascii (a ++ b) = string_of_list_ascii a +:+ string_of_list_ascii b.
Proof.
  induction a as [|c a IH]; [reflexivity|].
  change ((c :: a) ++ b) with (c :: (a ++ b)).
  cbn [string_of_list_ascii]. rewrite IH. reflexivity.
Qed.

Lemma without_commas_join (gs : list (list ascii)) :
  Forall (fun g => forallb is_digit g = true) gs ->
  without_commas (join "," (map string_of_list_ascii gs)) =
    string_of_list_ascii (concat gs).
Proof.
  induction 1 as [|g gs Hg Hgs IH]; [reflexivity|].
  destruct gs as [|g' gs].
  - cbn [map join concat]. rewrite app_nil_r. apply without_commas_digits. exact Hg.
  - change (join "," (map string_of_list_ascii (g :: g' :: gs)))
      with (string_of_list_ascii g +:+ "," +:+ join "," (map string_of_list_ascii (g' :: gs))).
    rewrite !without_commas_app, IH, (without_commas_digits g Hg).
    change (concat (g :: g' :: gs)) with (g ++ concat (g' :: gs)).
    rewrite text_of_app. reflexivity.
Qed.

Lemma concat_groups (ds : list ascii) : ds <> [] -> concat (groups ds) = ds.
Proof.
  intros Hne. unfold groups.
  destruct (groups_from_right_spec (rev ds) []) as (Hcat & _).
  - cbn [length]. lia.
  - left. intros Hrev. apply Hne.
    rewrite <- (rev_involutive ds), Hrev. reflexivity.
  - rewrite Hcat, rev_involutive. apply app_nil_r.
Qed.

Lemma forallb_concat (f : ascii -> bool) (gs : list (list ascii)) :
  forallb f (concat gs) = true -> Forall (fun g => forallb f g = true) gs.
Proof.
  induction gs as [|g gs IH]; intros Hall; [constructor|].
  cbn [concat] in Hall. rewrite forallb_app in Hall.
  apply andb_true_iff in Hall. destruct Hall as [Hg Hgs].
  constructor; [exact Hg|apply IH; exact Hgs].
Qed.

Lemma without_commas_grouped (m : Z) :
  0 <= m ->
  without_commas (join "," (map string_of_list_ascii (groups (digits m)))) =
    string_of_list_ascii (digits m).
Proof.
  intros Hm. rewrite without_commas_join.
  - rewrite concat_groups by apply digits_nonempty. reflexivity.
  - apply forallb_concat. rewrite concat_groups by apply digits_nonempty.
    apply digits_all_digits. exact Hm.
Qed.

(** X13. The separators of a [pp_int] hide no digit: for a [pp_int] without a
    custom text (or with the empty one), [repr] with the commas taken out is
    [str] of the integer. *)
Theorem separators_hide_no_digit (n : Z) (custom : option string) :
  truthy custom = false ->
  without_commas (__repr__ (__new__ n custom)) = str_int n.
Proof.
  intros Hcustom. unfold __repr__, __new__. cbn [custom_print_str real].
  rewrite Hcustom. unfold format_comma, str_int.
  destruct (n <? 0) eqn:Hneg.
  - apply Z.ltb_lt in Hneg. rewrite Z.abs_neq by lia.
    cbn [without_commas]. change (Ascii.eqb "-" ",") with false. cbv iota.
    rewrite without_commas_grouped by lia. reflexivity.
  - apply Z.ltb_ge in Hneg. rewrite Z.abs_eq by lia.
    apply without_commas_grouped. exact Hneg.
Qed.

Lemma groups_from_right_short (todo : list ascii) : forall cur : list ascii,
  (length todo + length cur <= 3)%nat ->
  groups_from_right todo cur = [rev todo ++ cur].
Proof.
  induction todo as [|c rest IH]; intros cur Hlen; [reflexivity|].
  cbn [groups_from_right length] in Hlen |- *.
  assert (Hfull : (length cur =? 3)%nat = false) by (apply Nat.eqb_neq; lia).
  rewrite Hfull, IH by (cbn [length]; lia).
  cbn [rev]. rewrite <- app_assoc. reflexivity.
Qed.

Lemma digits_fuel_length_le (fuel : nat) : forall (k : nat) (n : Z) (acc : list ascii),
  0 <= n < 10 ^ Z.of_nat (S k) ->
  (length (digits_fuel fuel n acc) <= length acc + S k)%nat.
Proof.
  induction fuel as [|f IH]; intros k n acc Hn; cbn [digits_fuel]; [lia|].
  destruct (n <? 10) eqn:Hlt; [cbn [length]; lia|].
  apply Z.ltb_ge in Hlt.
  destruct k as [|k]; [change (10 ^ Z.of_nat 1) with 10 in Hn; lia|].
  specialize (IH k (n / 10) (digit_char (n mod 10) :: acc)).
  cbn [length] in IH.
  assert (Hq : 0 <= n / 10 < 10 ^ Z.of_nat (S k)).
  { rewrite (Nat2Z.inj_succ (S k)), Z.pow_succ_r in Hn by lia.
    split; [apply Z.div_pos; lia|apply Z.div_lt_upper_bound; lia]. }
  specialize (IH Hq). lia.
Qed.

(** X14. An integer of fewer than four digits prints without a separator:
    for [-1000 < n < 1000], [repr] of a [pp_int] without a custom text is
    [str] of the integer. *)
Theorem small_integers_print_plain (n : Z) (custom : option string) :
  truthy custom = false ->
  -1000 < n < 1000 ->
  __repr__ (__new__ n custom) = str_int n.
Proof.
  intros Hcustom Hn. unfold __repr__, __new__. cbn [custom_print_str real].
  rewrite Hcustom. unfold format_comma, str_int.
  assert (Hone : forall m, 0 <= m < 1000 ->
            join "," (map string_of_list_ascii (groups (digits m))) =
            string_of_list_ascii (digits m)).
  { intros m Hm. unfold groups.
    rewrite groups_from_right_short.
    - rewrite app_nil_r, rev_involutive. reflexivity.
    - rewrite length_rev. cbn [length]. unfold digits.
      pose proof (digits_fuel_length_le (S (Z.to_nat (Z.log2 m))) 2 m []) as Hlen.
      cbn [length] in Hlen. change (10 ^ Z.of_nat 3) with 1000 in Hlen.
      specialize (Hlen Hm). lia. }
  destruct (n <? 0) eqn:Hneg.
  - apply Z.ltb_lt in Hneg. rewrite Z.abs_neq by lia. rewrite Hone by lia. reflexivity.
  - apply Z.ltb_ge in Hneg. rewrite Z.abs_eq by lia. apply Hone. lia.
Qed.

End PpIntExtras.

Lemma separators_hide_no_digit_witness :
  Shape.without_commas (PpInt.__repr__ (PpInt.__new__ (-1234567) (Some EmptyString))) =
    "-1234567".
Proof.
  exact (separators_hide_no_digit (-1234567) (Some EmptyString) eq_refl).
Defined.

Lemma small_integers_print_plain_witness :
  PpInt.__repr__ (PpInt.__new__ (-999) None) = "-999".
Proof.
  apply (small_integers_print_plain (-999) None); [reflexivity|lia].
Defined.

(** * More on the duplicate-key guard *)

Section GuardExtras.
Import DuplicateKeys Shape.

Variables V W : Type.

(** The pairs with [f] applied to every value. *)
Local Abbreviation on_values f :=
  (map (fun kv : string * V => (fst kv, f (snd kv)))).

Lemma dict_setitem_on_values (f : V -> W) (d : list (string * V)) (k : string) (v : V) :
  dict_setitem W (on_values f d) k (f v) = on_values f (dict_setitem V d k v).
Proof.
  induction d as [|[k' v'] d IH]; [reflexivity|].
  cbn [map dict_setitem fst snd].
  destruct (String.eqb k' k); [reflexivity|].
  cbn [map fst snd]. rewrite IH. reflexivity.
Qed.

Lemma dict_of_pairs_on_values (f : V -> W) (pairs : list (string * V)) :
  dict_of_pairs W (on_values f pairs) = on_values f (dict_of_pairs V pairs).
Proof.
  unfold dict_of_pairs.
  change (@nil (string * W)) with (on_values f []).
  generalize (@nil (string * V)) as d.
  induction pairs as [|[k v] pairs IH]; intros d; [reflexivity|].
  cbn [map fold_left fst snd]. rewrite dict_setitem_on_values. apply IH.
Qed.

Lemma keys_on_values (f : V -> W) (pairs : list (string * V)) :
  map fst (on_values f pairs) = map fst pairs.
Proof.
  induction pairs as [|[k v] pairs IH]; [reflexivity|].
  cbn [map fst]. rewrite IH. reflexivity.
Qed.

(** X15. The guard never looks at the values: changing every value by a
    function [f] leaves the outcome as it was, the same error or the same
    mapping with [f] applied to its values. *)
Theorem guard_ignores_the_values (f : V -> W) (ordered_pairs : list (string * V)) :
  dict_raise_error_on_duplicate_keys W
      (map (fun kv => (fst kv, f (snd kv))) ordered_pairs) =
    match dict_raise_error_on_duplicate_keys V ordered_pairs with
    | Returns d => Returns (map (fun kv => (fst kv, f (snd kv))) d)
    | Raises e => Raises e
    end.
Proof.
  unfold dict_raise_error_on_duplicate_keys, duplicate_keys.
  rewrite dict_of_pairs_on_values, keys_on_values, !length_map.
  destruct (negb _); reflexivity.
Qed.

Local Abbreviation unseen seen :=
  (fun k : string => negb (existsb (String.eqb k) seen)).







End GuardExtras.

Example duplicates_in_input_order :
  DuplicateKeys.dict_raise_error_on_duplicate_keys Z
    [("b", 1); ("a", 2); ("c", 3); ("a", 4); ("b", 5)] =
    Raises (ValueError "Duplicate keys in DeepSpeed config: ['b', 'a']").
Proof.
  vm_compute. reflexivity.
Qed.
